(** * Batch get: the request builder and the paging iterator of batchget.go

    A shallow embedding of [Table.Batch], [Batch.Get], [BatchGet.And],
    [BatchGet.input], [newBGIter], [bgIter.Next], [bgIter.Err] and
    [BatchGet.All], followed by the properties of the paging state machine.

    Go pointers that may be nil are [option]s, and dereferencing nil is the
    outcome [Panics].  The wire structs of the AWS SDK are records with the
    fields this file reads or writes.  The collaborators that live outside
    batchget.go (the query builder, the decoder, the backoff clock, the
    DynamoDB client) are interfaces, given as type classes. *)

From Stdlib Require Import ZArith.
From stdpp Require Import gmap strings list fin_maps.

Local Open Scope Z_scope.

(** ** Errors *)

(** A Go [error] value; the nil error is [None : option error]. *)
Inductive error : Type :=
| ErrNotFound                 (* the package's sentinel for "no item found" *)
| Errorf (msg : string)       (* an error made with fmt.Errorf *)
| Foreign (msg : string).     (* an error made by a collaborator *)

#[global] Instance error_eq_dec : EqDecision error.
Proof. solve_decision. Defined.

(** ** Wire structs (github.com/aws/aws-sdk-go/service/dynamodb) *)

Inductive AttributeValue : Type :=
| AttrS (s : string)
| AttrN (n : string)
| AttrBOOL (b : bool)
| AttrNULL.

(** [map[string]*dynamodb.AttributeValue]: an item, and also a key. *)
Abbreviation Item := (gmap string AttributeValue).

Record KeysAndAttributes : Type := mkKeysAndAttributes {
  AttributesToGet : list string;
  ConsistentRead : option bool;
  ExpressionAttributeNames : gmap string string;
  Keys : list Item;
  ProjectionExpression : option string
}.

Definition appendKey (k : Item) (kas : KeysAndAttributes) : KeysAndAttributes :=
  mkKeysAndAttributes (AttributesToGet kas) (ConsistentRead kas)
    (ExpressionAttributeNames kas) (Keys kas ++ [k]) (ProjectionExpression kas).

Definition setProjectionExpression (p : option string) (kas : KeysAndAttributes)
  : KeysAndAttributes :=
  mkKeysAndAttributes (AttributesToGet kas) (ConsistentRead kas)
    (ExpressionAttributeNames kas) (Keys kas) p.

Definition setConsistentRead (c : option bool) (kas : KeysAndAttributes)
  : KeysAndAttributes :=
  mkKeysAndAttributes (AttributesToGet kas) c
    (ExpressionAttributeNames kas) (Keys kas) (ProjectionExpression kas).

(** [map[string]*dynamodb.KeysAndAttributes]; an entry may hold nil. *)
Abbreviation RequestMap := (gmap string (option KeysAndAttributes)).

Record BatchGetItemInput : Type := mkBatchGetItemInput {
  RequestItems : RequestMap;
  ReturnConsumedCapacity : option string
}.

Definition setRequestItems (m : RequestMap) (inp : BatchGetItemInput)
  : BatchGetItemInput :=
  mkBatchGetItemInput m (ReturnConsumedCapacity inp).

(** [ConsumedCapacity] is never read by batchget.go and is left out. *)
Record BatchGetItemOutput : Type := mkBatchGetItemOutput {
  Responses : gmap string (list Item);
  UnprocessedKeys : RequestMap
}.

(** [o.Responses[t]]: a missing entry reads as the nil slice. *)
Definition responsesOf (o : BatchGetItemOutput) (t : string) : list Item :=
  default [] (Responses o !! t).

(** ** Outcomes and the state monad of the model *)

(** What running a piece of Go code from state [s] can give: a value and a
    new state, a run-time panic, or (for loops only) no answer within the
    given number of rounds.  The state reached is kept in every case. *)
Inductive outcome (S A : Type) : Type :=
| Returns (a : A) (s : S)
| Panics (s : S)
| OutOfFuel (s : S).
Arguments Returns {S A} a s.
Arguments Panics {S A} s.
Arguments OutOfFuel {S A} s.

Definition M (S A : Type) : Type := S → outcome S A.

#[global] Instance M_ret {S} : MRet (M S) := λ A a s, Returns a s.
#[global] Instance M_bind {S} : MBind (M S) := λ A B f m s,
  match m s with
  | Returns a s' => f a s'
  | Panics s' => Panics s'
  | OutOfFuel s' => OutOfFuel s'
  end.

Definition gets {S A} (f : S → A) : M S A := λ s, Returns (f s) s.
Definition modify {S} (f : S → S) : M S unit := λ s, Returns () (f s).
Definition panic {S A} : M S A := λ s, Panics s.
Definition outOfFuel {S A} : M S A := λ s, OutOfFuel s.

(** [*p] for a pointer [p]. *)
Definition deref {S A} (p : option A) : M S A :=
  match p with
  | Some a => mret a
  | None => panic
  end.

(** [l[i]] for a slice [l] and an [int] index [i]. *)
Definition index {S A} (l : list A) (i : Z) : M S A :=
  if i <? 0 then panic else deref (l !! Z.to_nat i).

Definition state_of {S A} (r : outcome S A) : S :=
  match r with
  | Returns _ s | Panics s | OutOfFuel s => s
  end.

(** ** Tables, batches and keys *)

Record Table : Type := mkTable { Name : string }.

Record Batch : Type := mkBatch {
  table : Table;
  hashKey : string;
  rangeKey : string;
  b_err : option error
}.

(** [Table.Batch], batchget.go lines 23-38. *)
Definition newBatch (t : Table) (hashAndRangeKeyName : list string) : Batch :=
  match hashAndRangeKeyName with
  | [] => mkBatch t "" "" None
  | [h] => mkBatch t h "" None
  | [h; r] => mkBatch t h r None
  | _ => mkBatch t "" ""
      (Some (Errorf "dynamo: batch: you may only provide the name of a range key and hash key. too many keys."))
  end.

(** The operator of a range condition; [Equal] is the one this file uses. *)
Inductive Operator : Type := Equal.

(** The interface [Keyed] as the pair of values its two methods return;
    a nil [RangeKey()] is [None]. *)
Record Keyed (Any : Type) : Type := mkKeyed {
  HashKey : Any;
  RangeKey : option Any
}.
Arguments mkKeyed {Any} _ _.
Arguments HashKey {Any} _.
Arguments RangeKey {Any} _.

(** The single-item query builder, used through these methods only.  The
    mutating methods return the query as mutated. *)
Class QueryOps (Any Query : Type) : Type := {
  Table_Get : Table → string → Any → Query;
  Query_Range : string → Operator → Any → Query → Query;
  Query_Project : list string → Query → Query;
  Query_err : Query → option error;
  Query_projection : Query → string;
  Query_keys : Query → Item;
  Query_keysAndAttribs : Query → KeysAndAttributes
}.

(** [unmarshalFunc]: decodes an item into what [out] points to. *)
Definition unmarshalFunc (Dest : Type) : Type := Item → Dest → Dest * option error.

Class Unmarshal (Dest : Type) : Type := {
  unmarshalAppend : unmarshalFunc Dest;
  unmarshalItem : unmarshalFunc Dest
}.

(** [backoff.ExponentialBackOff]; durations are nanoseconds. *)
Class BackOffOps (B : Type) : Type := {
  NewExponentialBackOff : B;
  SetMaxElapsedTime : Z → B → B;
  NextBackOff : B → Z * B
}.

(** The DynamoDB client behind [table.db.client], over its own state. *)
Class Client (World : Type) : Type :=
  BatchGetItem : BatchGetItemInput → World →
                 (option BatchGetItemOutput * option error) * World.

(** The policy of the retry wrapper: which errors it retries, and how many
    times before it gives up. *)
Class RetryPolicy : Type := {
  canRetry : error → bool;
  retryBudget : nat
}.

Section BatchGet.

Context {Any Query Dest BackOff World : Type}.
Context `{!QueryOps Any Query, !Unmarshal Dest, !BackOffOps BackOff,
          !Client World, !RetryPolicy}.

(** ** The request builder *)

Record BatchGet : Type := mkBatchGet {
  batch : Batch;
  reqs : list Query;
  projection : string;
  consistent : bool;
  bg_err : option error
}.

Definition withReqs (qs : list Query) (bg : BatchGet) : BatchGet :=
  mkBatchGet (batch bg) qs (projection bg) (consistent bg) (bg_err bg).

Definition withConsistent (on : bool) (bg : BatchGet) : BatchGet :=
  mkBatchGet (batch bg) (reqs bg) (projection bg) on (bg_err bg).

(** [BatchGet.setError], lines 132-136: the first error wins. *)
Definition setError (e : option error) (bg : BatchGet) : BatchGet :=
  match bg_err bg with
  | None => mkBatchGet (batch bg) (reqs bg) (projection bg) (consistent bg) e
  | Some _ => bg
  end.

(** One round of the loop of [BatchGet.add], lines 72-77. *)
Definition add1 (bg : BatchGet) (key : Keyed Any) : BatchGet :=
  let get := Table_Get (table (batch bg)) (hashKey (batch bg)) (HashKey key) in
  match RangeKey key with
  | Some rk =>
      if bool_decide (rangeKey (batch bg) ≠ "") then
        let get' := Query_Range (rangeKey (batch bg)) Equal rk get in
        let bg' := setError (Query_err get') bg in
        withReqs (reqs bg' ++ [get']) bg'
      else withReqs (reqs bg ++ [get]) bg
  | None => withReqs (reqs bg ++ [get]) bg
  end.

(** [BatchGet.add], lines 70-79. *)
Definition add (keys : list (Keyed Any)) (bg : BatchGet) : BatchGet :=
  foldl add1 bg keys.

(** [Batch.Get], lines 55-62. *)
Definition Get (b : Batch) (keys : list (Keyed Any)) : BatchGet :=
  add keys (mkBatchGet b [] "" false (b_err b)).

(** [BatchGet.And], lines 65-68. *)
Definition And (keys : list (Keyed Any)) (bg : BatchGet) : BatchGet :=
  add keys bg.

(** [BatchGet.Consistent], lines 84-87. *)
Definition Consistent (on : bool) (bg : BatchGet) : BatchGet :=
  withConsistent on bg.

(** The loop of lines 108-111: every query is projected on its own
    projection, and its error is offered to the batch. *)
Definition projectAll (bg : BatchGet) : BatchGet :=
  foldl (λ acc get,
           let get' := Query_Project [Query_projection get] get in
           setError (Query_err get') (withReqs (reqs acc ++ [get']) acc))
        (withReqs [] bg) (reqs bg).

(** The loop of lines 114-121: the first query gives the descriptor, the
    others add their key to it. *)
Definition mergeKeys (qs : list Query) : option KeysAndAttributes :=
  foldl (λ kas get,
           match kas with
           | None => Some (Query_keysAndAttribs get)
           | Some k => Some (appendKey (Query_keys get) k)
           end)
        None qs.

(** [BatchGet.input], lines 102-130.  The two assignments through [kas]
    dereference it, and [kas] is nil when there is no query. *)
Definition input : M BatchGet BatchGetItemInput :=
  bg ← gets id;
  (if bool_decide (projection bg ≠ "") then modify projectAll else mret ());;
  bg ← gets id;
  let kas := mergeKeys (reqs bg) in
  kas ← (if bool_decide (projection bg ≠ "")
         then k ← deref kas; mret (Some (setProjectionExpression (Some (projection bg)) k))
         else mret kas);
  kas ← (if consistent bg
         then k ← deref kas; mret (Some (setConsistentRead (Some (consistent bg)) k))
         else mret kas);
  mret (mkBatchGetItemInput (<[Name (table (batch bg)) := kas]> ∅) None).

(** ** The paging iterator *)

(** [bgIter], lines 139-147.  The iterator owns its [BatchGet]: the pointer
    [bg] is followed by this file only through the iterator.  [idx] is a Go
    [int]; it is only ever set to 0 or stepped by one below the length of a
    slice, so its arithmetic is written without wrap-around.  Maps are held
    by value: after line 191 the request and the page share one map in Go,
    which nothing in this file writes to afterwards. *)
Record bgIter : Type := mkBGIter {
  itr_bg : BatchGet;
  itr_input : option BatchGetItemInput;
  itr_output : option BatchGetItemOutput;
  itr_err : option error;
  itr_idx : Z;
  itr_backoff : BackOff;
  itr_unmarshal : unmarshalFunc Dest
}.

Definition withBG (bg : BatchGet) (i : bgIter) : bgIter :=
  mkBGIter bg (itr_input i) (itr_output i) (itr_err i) (itr_idx i)
    (itr_backoff i) (itr_unmarshal i).
Definition withInput (inp : option BatchGetItemInput) (i : bgIter) : bgIter :=
  mkBGIter (itr_bg i) inp (itr_output i) (itr_err i) (itr_idx i)
    (itr_backoff i) (itr_unmarshal i).
Definition withOutput (o : option BatchGetItemOutput) (i : bgIter) : bgIter :=
  mkBGIter (itr_bg i) (itr_input i) o (itr_err i) (itr_idx i)
    (itr_backoff i) (itr_unmarshal i).
Definition withErr (e : option error) (i : bgIter) : bgIter :=
  mkBGIter (itr_bg i) (itr_input i) (itr_output i) e (itr_idx i)
    (itr_backoff i) (itr_unmarshal i).
Definition withIdx (n : Z) (i : bgIter) : bgIter :=
  mkBGIter (itr_bg i) (itr_input i) (itr_output i) (itr_err i) n
    (itr_backoff i) (itr_unmarshal i).
Definition withBackoff (b : BackOff) (i : bgIter) : bgIter :=
  mkBGIter (itr_bg i) (itr_input i) (itr_output i) (itr_err i) (itr_idx i)
    b (itr_unmarshal i).

(** [newBGIter], lines 149-158. *)
Definition newBGIter (bg : BatchGet) (fn : unmarshalFunc Dest) (err : option error)
  : bgIter :=
  mkBGIter bg None None err 0 (SetMaxElapsedTime 0 NewExponentialBackOff) fn.

(** What the iterator does to the outside, in order. *)
Inductive event : Type :=
| EvBatchGetItem (inp : BatchGetItemInput)   (* a call of the client, line 199 *)
| EvSleep (d : Z).                           (* the time.Sleep of line 194 *)

(** The iterator, the client it talks to, and the journal of its calls. *)
Record machine : Type := mkMachine {
  iter : bgIter;
  client : World;
  journal : list event
}.

Definition onIter (f : bgIter → bgIter) : M machine unit :=
  modify (λ s, mkMachine (f (iter s)) (client s) (journal s)).

Definition emit (ev : event) : M machine unit :=
  modify (λ s, mkMachine (iter s) (client s) (journal s ++ [ev])).

(** A method of [*BatchGet] run on the iterator's [bg]. *)
Definition onBG {A} (m : M BatchGet A) : M machine A := λ s,
  let put bg := mkMachine (withBG bg (iter s)) (client s) (journal s) in
  match m (itr_bg (iter s)) with
  | Returns a bg => Returns a (put bg)
  | Panics bg => Panics (put bg)
  | OutOfFuel bg => OutOfFuel (put bg)
  end.

(** [client.BatchGetItem(inp)]. *)
Definition callClient (inp : BatchGetItemInput) : M machine (option BatchGetItemOutput * option error) :=
  λ s, let '(r, w) := BatchGetItem inp (client s) in
       Returns r (mkMachine (iter s) w (journal s ++ [EvBatchGetItem inp])).

(** Modelled from the spec: [retry], the wrapper of this repository that
    batchget.go calls at line 197 and that is declared outside it.  It runs
    [f]; when [f] fails with an error the policy retries and the policy's
    budget is not spent, it runs [f] again; it returns nil on success and
    otherwise the last error.  Its waits between attempts are its own and
    are not journalled. *)
Fixpoint retryLoop {S} (budget : nat) (f : M S (option error)) : M S (option error) :=
  e ← f;
  match e with
  | None => mret None
  | Some err =>
      if canRetry err then
        match budget with
        | O => mret (Some err)
        | Datatypes.S b => retryLoop b f
        end
      else mret (Some err)
  end.

Definition retry {S} (f : M S (option error)) : M S (option error) :=
  retryLoop retryBudget f.

(** The closure of lines 197-201. *)
Definition fetchOnce : M machine (option error) :=
  itr ← gets iter;
  inp ← deref (itr_input itr);
  '(o, e) ← callClient inp;
  onIter (withOutput o);;
  mret e.

(** Lines 171-177: the next item of the page at hand. *)
Definition nextBuffered (items : list Item) (out : Dest) : M machine (bool * Dest) :=
  itr ← gets iter;
  item ← index items (itr_idx itr);
  let '(out', e) := itr_unmarshal itr item out in
  onIter (withErr e);;
  onIter (λ i, withIdx (itr_idx i + 1) i);;
  mret (bool_decide (e = None), out').

(** Lines 184-195: at the end of a page, either stop (the result is
    [true]) or turn the unprocessed keys into the next request. *)
Definition nextRequest (tableName : string) : M machine bool :=
  itr ← gets iter;
  match itr_output itr with
  | Some o =>
      if Z.of_nat (length (responsesOf o tableName)) <=? itr_idx itr then
        if bool_decide (size (UnprocessedKeys o) = 0%nat) then mret true
        else
          inp ← deref (itr_input itr);
          onIter (withInput (Some (setRequestItems (UnprocessedKeys o) inp)));;
          onIter (withIdx 0);;
          let '(d, b) := NextBackOff (itr_backoff itr) in
          onIter (withBackoff b);;
          emit (EvSleep d);;
          mret false
      else mret false
  | None => mret false
  end.

(** Lines 197-212: fetch a page and hand out its first item. *)
Definition nextPage (tableName : string) (out : Dest) : M machine (bool * Dest) :=
  e ← retry fetchOnce;
  onIter (withErr e);;
  itr ← gets iter;
  o ← deref (itr_output itr);
  let items := responsesOf o tableName in
  if bool_decide (itr_err itr ≠ None) || bool_decide (length items = 0%nat) then
    (if bool_decide (itr_idx itr = 0) then onIter (withErr (Some ErrNotFound))
     else mret ());;
    mret (false, out)
  else
    item ← index items (itr_idx itr);
    let '(out', e) := itr_unmarshal itr item out in
    onIter (withErr e);;
    onIter (λ i, withIdx (itr_idx i + 1) i);;
    mret (bool_decide (e = None), out').

(** Lines 179-212: what [Next] does when no buffered item is left. *)
Definition nextFetch (tableName : string) (out : Dest) : M machine (bool * Dest) :=
  itr ← gets iter;
  (if itr_input itr is None
   then inp ← onBG input; onIter (withInput (Some inp))
   else mret ());;
  exhausted ← nextRequest tableName;
  if exhausted : bool then mret (false, out) else nextPage tableName out.

(** [bgIter.Next], lines 162-213. *)
Definition Next (out : Dest) : M machine (bool * Dest) :=
  itr ← gets iter;
  if itr_err itr is Some _ then mret (false, out) else
  let tableName := Name (table (batch (itr_bg itr))) in
  match itr_output itr with
  | Some o =>
      if itr_idx itr <? Z.of_nat (length (responsesOf o tableName))
      then nextBuffered (responsesOf o tableName) out
      else nextFetch tableName out
  | None => nextFetch tableName out
  end.

(** [bgIter.Err], lines 217-219. *)
Definition Err (s : machine) : option error := itr_err (iter s).

(** The loop of [All], lines 92-93, cut off after [fuel] rounds. *)
Fixpoint drain (fuel : nat) (out : Dest) : M machine Dest :=
  match fuel with
  | O => outOfFuel
  | Datatypes.S n =>
      '(more, out') ← Next out;
      if more : bool then drain n out' else mret out'
  end.

(** [BatchGet.All], lines 90-95: the error returned and what [out] holds. *)
Definition All (fuel : nat) (bg : BatchGet) (out : Dest) (w : World)
  : outcome machine (option error * Dest) :=
  (out' ← drain fuel out;
   e ← gets Err;
   mret (e, out')) (mkMachine (newBGIter bg unmarshalAppend (bg_err bg)) w []).

(** [BatchGet.Iter], lines 98-100. *)
Definition Iter (bg : BatchGet) : bgIter :=
  newBGIter bg unmarshalItem (bg_err bg).

End BatchGet.

Arguments BatchGet : clear implicits.
Arguments bgIter : clear implicits.
Arguments machine : clear implicits.

(** ** Vocabulary of the properties *)

Section Vocabulary.

Context {Any Query Dest BackOff World : Type}.
Context `{!QueryOps Any Query, !Unmarshal Dest, !BackOffOps BackOff,
          !Client World, !RetryPolicy}.

(** The builders that can be made from a batch [b]. *)
Inductive derivedFrom (b : Batch) : BatchGet Query → Prop :=
| derived_Get keys : derivedFrom b (Get b keys)
| derived_And keys bg : derivedFrom b bg → derivedFrom b (And keys bg)
| derived_Consistent on bg : derivedFrom b bg → derivedFrom b (Consistent on bg).

(** [itr.bg.batch.table.Name()], line 168. *)
Definition tableOf (itr : bgIter Query Dest BackOff) : string :=
  Name (table (batch (itr_bg itr))).

(** The items of the page at hand; none before the first fetch. *)
Definition pageItems (itr : bgIter Query Dest BackOff) : list Item :=
  match itr_output itr with
  | Some o => responsesOf o (tableOf itr)
  | None => []
  end.

(** The cursor lies within the page at hand. *)
Definition cursorInBounds (itr : bgIter Query Dest BackOff) : Prop :=
  0 ≤ itr_idx itr ≤ Z.of_nat (length (pageItems itr)).

(** The client calls recorded in a journal. *)
Definition calls (j : list event) : list BatchGetItemInput :=
  omap (λ ev, match ev with EvBatchGetItem inp => Some inp | EvSleep _ => None end) j.

(** The states of an iterator in use: made by [newBGIter], then driven by
    calls of [Next] that returned. *)
Inductive reachable : machine Query Dest BackOff World → Prop :=
| reachable_new bg fn err w j : reachable (mkMachine (newBGIter bg fn err) w j)
| reachable_Next s out r s' : reachable s → Next out s = Returns r s' → reachable s'.

(** The cursor is in bounds and a page at hand came from a request. *)
Definition wellFormed (itr : bgIter Query Dest BackOff) : Prop :=
  cursorInBounds itr ∧ (is_Some (itr_output itr) → is_Some (itr_input itr)).

(** [Next out], run from [s], calls the client. *)
Definition fetchesPage (out : Dest) (s : machine Query Dest BackOff World) : Prop :=
  calls (journal (state_of (Next out s))) ≠ calls (journal s).

(** A caller that calls [Next] once for every destination of [outs]. *)
Fixpoint NextEach (outs : list Dest) : M (machine Query Dest BackOff World) (list (bool * Dest)) :=
  match outs with
  | [] => mret []
  | out :: outs' => r ← Next out; rs ← NextEach outs'; mret (r :: rs)
  end.

(** The client, from state [w], answers the request [inp] with the first
    page, the request for that page's unprocessed keys with the second, and
    so on, without an error. *)
Fixpoint serves (w : World) (inp : BatchGetItemInput) (pages : list BatchGetItemOutput)
  : Prop :=
  match pages with
  | [] => True
  | p :: ps =>
      ∃ w', BatchGetItem inp w = ((Some p, None), w')
            ∧ serves w' (setRequestItems (UnprocessedKeys p) inp) ps
  end.

(** Every page but the last leaves keys unprocessed, and the last leaves none. *)
Fixpoint lastPageCompletes (pages : list BatchGetItemOutput) : Prop :=
  match pages with
  | [] => False
  | [p] => size (UnprocessedKeys p) = 0%nat
  | p :: ps => size (UnprocessedKeys p) ≠ 0%nat ∧ lastPageCompletes ps
  end.

(** The items of table [t] in the pages, in the order of arrival. *)
Definition itemsOf (t : string) (pages : list BatchGetItemOutput) : list Item :=
  concat ((λ p, responsesOf p t) <$> pages).

(** The query that [add] makes for one key, lines 72-75: a get on the hash
    key, with an equality on the range key when the batch names a range key
    and the key has a range value. *)
Definition queryOf (b : Batch) (key : Keyed Any) : Query :=
  let get := Table_Get (table b) (hashKey b) (HashKey key) in
  match RangeKey key with
  | Some rk =>
      if bool_decide (rangeKey b ≠ "") then Query_Range (rangeKey b) Equal rk get
      else get
  | None => get
  end.

(** The error that [add] offers to the batch for one key, line 75: that of
    the query when the range condition was attached, none otherwise. *)
Definition offeredError (b : Batch) (key : Keyed Any) : option error :=
  match RangeKey key with
  | Some _ => if bool_decide (rangeKey b ≠ "") then Query_err (queryOf b key) else None
  | None => None
  end.

(** The first error of a list of errors, nil ones skipped. *)
Definition firstError (es : list (option error)) : option error :=
  head (omap id es).

(** What the iterator journals after the first page when the pages arrive
    one after the other: for every page but the last, a sleep of the next
    backoff delay and then the request for that page's unprocessed keys. *)
Fixpoint followUps (inp : BatchGetItemInput) (b : BackOff)
    (pages : list BatchGetItemOutput) : list event :=
  match pages with
  | [] => []
  | p :: ps =>
      match ps with
      | [] => []
      | _ :: _ =>
          let req := setRequestItems (UnprocessedKeys p) inp in
          EvSleep (NextBackOff b).1 :: EvBatchGetItem req
            :: followUps req (NextBackOff b).2 ps
      end
  end.

(** The request can be built if it still has to be. *)
Definition ready (itr : bgIter Query Dest BackOff) : Prop :=
  itr_input itr = None → ∃ inp bg', input (itr_bg itr) = Returns inp bg'.

(** A client that never returns a nil output. *)
Definition alwaysAnswers : Prop :=
  ∀ inp (w : World), is_Some (BatchGetItem inp w).1.1.

End Vocabulary.

(** ** Test doubles

    Small executable instances of the collaborators, used to run the model
    on concrete batches. *)
Module Mock.

(** A query as the builder would hold it. *)
Record Query : Type := mkQuery {
  q_hashKey : string;
  q_hashValue : AttributeValue;
  q_range : option (string * AttributeValue);
  q_projection : string;
  q_err : option error
}.

Definition q_keys (q : Query) : Item :=
  match q_range q with
  | Some (rk, rv) => <[rk := rv]> {[q_hashKey q := q_hashValue q]}
  | None => {[q_hashKey q := q_hashValue q]}
  end.

#[export] Instance queryOps : QueryOps AttributeValue Query := {|
  Table_Get _ name v := mkQuery name v None "" None;
  Query_Range name _ v q :=
    mkQuery (q_hashKey q) (q_hashValue q) (Some (name, v)) (q_projection q) (q_err q);
  Query_Project paths q :=
    mkQuery (q_hashKey q) (q_hashValue q) (q_range q)
      (String.concat ", " paths) (q_err q);
  Query_err := q_err;
  Query_projection := q_projection;
  Query_keys := q_keys;
  Query_keysAndAttribs q :=
    mkKeysAndAttributes [] (Some false) ∅ [q_keys q]
      (if bool_decide (q_projection q = "") then None else Some (q_projection q))
|}.

(** [out] points to a slice of raw items: decoding keeps the item as it is. *)
#[export] Instance unmarshalRaw : Unmarshal (list Item) := {|
  unmarshalAppend item out := (out ++ [item], None);
  unmarshalItem item out := ([item], None)
|}.

(** A backoff that doubles from 500ms, kept as the number of calls so far. *)
#[export] Instance doubling : BackOffOps nat := {|
  NewExponentialBackOff := 0%nat;
  SetMaxElapsedTime _ b := b;
  NextBackOff n := (500000000 * 2 ^ Z.of_nat n, S n)
|}.

(** A client that plays back a script of replies, one per call. *)
Abbreviation Script := (list (option BatchGetItemOutput * option error)).

#[export] Instance scripted : Client Script := λ _ w,
  match w with
  | r :: w' => (r, w')
  | [] => ((None, Some (Foreign "mock: the script is over")), [])
  end.

(** A policy that retries throttling errors, twice at most. *)
#[export] Instance policy : RetryPolicy := {|
  canRetry e := bool_decide (e = Foreign "ProvisionedThroughputExceededException");
  retryBudget := 2
|}.

Definition users : Table := mkTable "users".

Definition key (id : string) : Keyed AttributeValue := mkKeyed (AttrN id) None.

Definition item (id name : string) : Item :=
  <["Name" := AttrS name]> {["ID" := AttrN id]}.

Definition page (items : list Item) (unprocessed : RequestMap) : BatchGetItemOutput :=
  mkBatchGetItemOutput {["users" := items]} unprocessed.

(** The unprocessed-keys map that names the keys [ids] of table users. *)
Definition unprocessed (ids : list string) : RequestMap :=
  {["users" := Some (mkKeysAndAttributes [] (Some false) ∅
                      ((λ id, {["ID" := AttrN id]}) <$> ids) None)]}.

(** Two users, and batches that ask for them. *)
Definition ann : Item := item "1" "Ann".
Definition bob : Item := item "2" "Bob".

Definition oneKey : BatchGet Query := Get (newBatch users ["ID"]) [key "1"].
Definition twoKeys : BatchGet Query := Get (newBatch users ["ID"]) [key "1"; key "2"].
Definition noKeys : BatchGet Query := Get (newBatch users ["ID"]) [].

(** The error of a request that could not be sent; [policy] gives up on it
    at once. *)
Definition sendFailed : error := Foreign "RequestError: send request failed".

(** The error of a throttled request; [policy] retries it twice. *)
Definition throttled : error := Foreign "ProvisionedThroughputExceededException".

(** What the SDK hands back next to an error: an output with nothing in it. *)
Definition emptyOutput : BatchGetItemOutput := mkBatchGetItemOutput ∅ ∅.

Definition start (bg : BatchGet Query) (fn : unmarshalFunc (list Item)) (w : Script)
  : machine Query (list Item) nat Script :=
  mkMachine (newBGIter bg fn (bg_err bg)) w [].

(** A decoder that takes only items with a Name and keeps them as they are. *)
Definition cannotDecode : error := Foreign "dynamo: cannot unmarshal item".

Definition pickyAppend : unmarshalFunc (list Item) := λ item out,
  if item !! "Name" is Some _ then (out ++ [item], None) else (out, Some cannotDecode).

Definition pickyItem : unmarshalFunc (list Item) := λ item out,
  if item !! "Name" is Some _ then ([item], None) else (out, Some cannotDecode).

Definition picky : Unmarshal (list Item) := {|
  unmarshalAppend := pickyAppend;
  unmarshalItem := pickyItem
|}.

(** An item without a Name. *)
Definition nameless : Item := {["ID" := AttrN "3"]}.

(** A query builder that refuses a NULL range value. *)
Definition badRange : error := Foreign "dynamo: range key value is NULL".

Definition strictQueries : QueryOps AttributeValue Query := {|
  Table_Get _ name v := mkQuery name v None "" None;
  Query_Range name _ v q :=
    mkQuery (q_hashKey q) (q_hashValue q) (Some (name, v)) (q_projection q)
      (if v is AttrNULL then Some badRange else q_err q);
  Query_Project paths q :=
    mkQuery (q_hashKey q) (q_hashValue q) (q_range q)
      (String.concat ", " paths) (q_err q);
  Query_err := q_err;
  Query_projection := q_projection;
  Query_keys := q_keys;
  Query_keysAndAttribs q :=
    mkKeysAndAttributes [] (Some false) ∅ [q_keys q]
      (if bool_decide (q_projection q = "") then None else Some (q_projection q))
|}.

(** A key with a range value. *)
Definition keyOf (id : string) (month : AttributeValue) : Keyed AttributeValue :=
  mkKeyed (AttrN id) (Some month).

(** A client that plays back a script like [scripted], but hands back an
    empty output where the script has none. *)
Definition steady : Client Script := λ _ w,
  match w with
  | (o, e) :: w' => ((Some (default emptyOutput o), e), w')
  | [] => ((Some emptyOutput, Some sendFailed), [])
  end.

End Mock.

(** * Properties *)

(** Unfolds the monad of the model down to its [match]es. *)
Ltac run :=
  repeat progress
    (unfold mbind, M_bind, mret, M_ret, gets, modify, onIter, emit, deref, panic,
       outOfFuel in *; cbn beta iota in *).

(** Computes the field updates of an iterator given by its fields. *)
Ltac fields :=
  unfold withIdx, withErr, withOutput, withInput, withBG, withBackoff, tableOf;
  cbn [itr_bg itr_input itr_output itr_err itr_idx itr_backoff itr_unmarshal
       iter client journal].

Section BuilderFacts.

Context {Any Query : Type} `{!QueryOps Any Query}.

Implicit Types (bg : BatchGet Query) (b : Batch).

Lemma setError_batch e bg : batch (setError e bg) = batch bg.
Proof. unfold setError. by destruct (bg_err bg). Qed.

Lemma setError_sticky e e0 bg : bg_err bg = Some e0 → bg_err (setError e bg) = Some e0.
Proof. unfold setError. intros Hbg. by rewrite Hbg. Qed.

Lemma add1_batch bg key : batch (add1 bg key) = batch bg.
Proof.
  unfold add1. destruct (RangeKey key); [case_bool_decide|]; cbn;
    by rewrite ?setError_batch.
Qed.

Lemma add1_sticky e0 bg key : bg_err bg = Some e0 → bg_err (add1 bg key) = Some e0.
Proof.
  intros Hbg. unfold add1. destruct (RangeKey key); [case_bool_decide|]; cbn;
    by rewrite ?(setError_sticky _ e0).
Qed.

Lemma add_batch keys bg : batch (add keys bg) = batch bg.
Proof.
  unfold add. revert bg. induction keys as [|k keys IH]; intros bg; [done|].
  cbn. by rewrite IH, add1_batch.
Qed.

Lemma add_sticky e0 keys bg : bg_err bg = Some e0 → bg_err (add keys bg) = Some e0.
Proof.
  unfold add. revert bg. induction keys as [|k keys IH]; intros bg Hbg; [done|].
  cbn. by apply IH, add1_sticky.
Qed.

Lemma projectAll_batch bg : batch (projectAll bg) = batch bg.
Proof.
  unfold projectAll.
  assert (Hgen : ∀ qs acc,
    batch (foldl (λ acc get,
             let get' := Query_Project [Query_projection get] get in
             setError (Query_err get') (withReqs (reqs acc ++ [get']) acc)) acc qs)
    = batch acc).
  { induction qs as [|q qs IH]; intros acc; [done|].
    cbn. by rewrite IH, setError_batch. }
  by rewrite Hgen.
Qed.

Lemma projectAll_no_reqs bg : reqs bg = [] → projectAll bg = bg.
Proof. intros Hreqs. unfold projectAll. rewrite Hreqs. destruct bg; cbn in *; by subst. Qed.

Lemma projectAll_flags bg :
  projection (projectAll bg) = projection bg
  ∧ consistent (projectAll bg) = consistent bg.
Proof.
  unfold projectAll.
  assert (Hgen : ∀ qs acc,
    let r := foldl (λ acc get,
             let get' := Query_Project [Query_projection get] get in
             setError (Query_err get') (withReqs (reqs acc ++ [get']) acc)) acc qs in
    projection r = projection acc ∧ consistent r = consistent acc).
  { induction qs as [|q qs IH]; intros acc; [done|].
    cbn zeta in *. cbn [foldl].
    destruct (IH (setError (Query_err (Query_Project [Query_projection q] q))
                    (withReqs (reqs acc ++ [Query_Project [Query_projection q] q]) acc)))
      as [Hp Hc].
    rewrite Hp, Hc. unfold setError. cbn. by destruct (bg_err acc). }
  apply (Hgen (reqs bg) (withReqs [] bg)).
Qed.

(** [input] never changes the batch, whatever its outcome. *)
Lemma input_batch bg : batch (state_of (input bg)) = batch bg.
Proof.
  unfold input. run. unfold id.
  destruct (bool_decide (projection bg ≠ "")) eqn:Hp; cbn.
  - destruct (projectAll_flags bg) as [-> ->]. rewrite Hp.
    destruct (mergeKeys (reqs (projectAll bg))); cbn;
      [destruct (consistent bg)|]; cbn; apply projectAll_batch.
  - rewrite Hp. destruct (consistent bg); cbn; [|done].
    destruct (mergeKeys (reqs bg)); by cbn.
Qed.

Lemma mergeKeys_nonempty (qs : list Query) : qs ≠ [] → is_Some (mergeKeys qs).
Proof.
  unfold mergeKeys. destruct qs as [|q qs]; [done|]. intros _. cbn.
  generalize (Query_keysAndAttribs q). induction qs as [|q' qs IH]; intros k; cbn; eauto.
Qed.

Lemma projectAll_reqs_length bg : length (reqs (projectAll bg)) = length (reqs bg).
Proof.
  unfold projectAll.
  assert (Hgen : ∀ qs acc,
    length (reqs (foldl (λ acc get,
             let get' := Query_Project [Query_projection get] get in
             setError (Query_err get') (withReqs (reqs acc ++ [get']) acc)) acc qs))
    = (length (reqs acc) + length qs)%nat).
  { induction qs as [|q qs IH]; intros acc; cbn; [lia|].
    rewrite IH. unfold setError. cbn. destruct (bg_err acc); cbn;
      rewrite length_app; cbn; lia. }
  by rewrite Hgen.
Qed.

(** With at least one key the request is always built. *)
Lemma input_returns bg :
  reqs bg ≠ [] → ∃ inp bg', input bg = Returns inp bg'.
Proof.
  intros Hne. unfold input. run. unfold id.
  destruct (bool_decide (projection bg ≠ "")) eqn:Hp; cbn.
  - destruct (projectAll_flags bg) as [-> ->]. rewrite Hp.
    destruct (mergeKeys_nonempty (reqs (projectAll bg))) as [k ->].
    { intros Hnil. apply (f_equal length) in Hnil.
      rewrite projectAll_reqs_length in Hnil. by destruct (reqs bg). }
    cbn. destruct (consistent bg); cbn; eauto.
  - rewrite Hp. destruct (mergeKeys_nonempty (reqs bg) Hne) as [k ->].
    destruct (consistent bg); cbn; eauto.
Qed.

Lemma derivedFrom_sticky b e0 bg :
  b_err b = Some e0 → derivedFrom b bg → bg_err bg = Some e0.
Proof.
  intros Hb. induction 1 as [keys|keys bg _ IH|on bg _ IH].
  - unfold Get. by apply add_sticky.
  - unfold And. by apply add_sticky.
  - done.
Qed.

(** C10, as amended.  For a BatchGet with no accumulated keys: when no
    projection is set and the consistent flag is off, [input] returns a
    request whose single table entry is the nil descriptor; when a
    projection is set or the consistent flag is on, [input] dereferences
    that nil descriptor and panics. *)
Theorem input_without_keys bg :
  reqs bg = [] →
  (projection bg = "" → consistent bg = false →
     input bg = Returns (mkBatchGetItemInput {[Name (table (batch bg)) := None]} None) bg)
  ∧ (projection bg ≠ "" ∨ consistent bg = true → input bg = Panics bg).
Proof.
  intros Hreqs. unfold input. run. unfold id. split.
  - intros Hp Hc. rewrite bool_decide_eq_false_2 by (by intros ?). cbn.
    rewrite bool_decide_eq_false_2 by (by intros ?).
    by rewrite Hc, Hreqs.
  - intros Hpc. destruct (bool_decide (projection bg ≠ "")) eqn:Hp; cbn.
    + rewrite projectAll_no_reqs by done. by rewrite Hp, Hreqs.
    + rewrite Hp. destruct Hpc as [Hne|Hc].
      * by apply bool_decide_eq_false_1 in Hp.
      * by rewrite Hc, Hreqs.
Qed.

End BuilderFacts.

Section IteratorFacts.

Context {Any Query Dest BackOff World : Type}.
Context `{!QueryOps Any Query, !Unmarshal Dest, !BackOffOps BackOff,
          !Client World, !RetryPolicy}.

Implicit Types (s : machine Query Dest BackOff World) (out : Dest)
  (itr : bgIter Query Dest BackOff) (inp : BatchGetItemInput)
  (p : BatchGetItemOutput) (e : option error) (t : string)
  (fn : unmarshalFunc Dest) (b : BackOff) (w : World) (j : list event).

(** *** The retried client call *)

Lemma fetchOnce_eq s inp :
  itr_input (iter s) = Some inp →
  fetchOnce s =
    Returns (BatchGetItem inp (client s)).1.2
      (mkMachine (withOutput (BatchGetItem inp (client s)).1.1 (iter s))
         (BatchGetItem inp (client s)).2
         (journal s ++ [EvBatchGetItem inp])).
Proof.
  intros Hin. unfold fetchOnce, callClient. run. rewrite Hin. run.
  by destruct (BatchGetItem inp (client s)) as [[o e] w].
Qed.

(** The retried call returns: it makes at least one call, always of the
    request at hand, and touches nothing of the iterator but [output]. *)
Lemma retryLoop_fetchOnce budget s inp :
  itr_input (iter s) = Some inp →
  ∃ e o w n,
    retryLoop budget fetchOnce s =
      Returns e (mkMachine (withOutput o (iter s)) w
                   (journal s ++ replicate (S n) (EvBatchGetItem inp))).
Proof.
  revert s. induction budget as [|b IH]; intros s Hin; cbn [retryLoop]; run;
    rewrite (fetchOnce_eq s inp Hin);
    destruct (BatchGetItem inp (client s)) as [[o e] w]; cbn.
  - destruct e as [err|]; [destruct (canRetry err)|].
    all: eexists _, o, w, 0%nat; reflexivity.
  - destruct e as [err|]; [destruct (canRetry err)|].
    2,3: eexists _, o, w, 0%nat; reflexivity.
    edestruct (IH (mkMachine (withOutput o (iter s)) w
                     (journal s ++ [EvBatchGetItem inp]))) as (e' & o' & w' & n & ->);
      [done|].
    exists e', o', w', (S n). cbn. by rewrite <- app_assoc.
Qed.

Lemma retry_fetchOnce_ok s inp o w :
  itr_input (iter s) = Some inp →
  BatchGetItem inp (client s) = ((o, None), w) →
  retry fetchOnce s =
    Returns None (mkMachine (withOutput o (iter s)) w (journal s ++ [EvBatchGetItem inp])).
Proof.
  intros Hin Hcall. unfold retry.
  destruct retryBudget; cbn [retryLoop]; run;
    by rewrite (fetchOnce_eq s inp Hin), Hcall.
Qed.

(** *** [Next], branch by branch *)

(** Lines 197-212 from a cursor at 0: the retried call returns [e] and
    leaves [o] in [output]; a nil [o] panics at line 203, an error or an
    empty page ends in [ErrNotFound], and otherwise the first item is
    decoded. *)
Lemma nextPage_cases t out s inp :
  itr_input (iter s) = Some inp → itr_idx (iter s) = 0 →
  ∃ e o w n,
    let j := journal s ++ replicate (S n) (EvBatchGetItem inp) in
    retry fetchOnce s = Returns e (mkMachine (withOutput o (iter s)) w j)
    ∧ nextPage t out s =
        match o with
        | None => Panics (mkMachine (withErr e (withOutput None (iter s))) w j)
        | Some p =>
            match e, responsesOf p t with
            | None, item :: _ =>
                let r := itr_unmarshal (iter s) item out in
                Returns (bool_decide (r.2 = None), r.1)
                  (mkMachine (withIdx 1 (withErr r.2 (withOutput o (iter s)))) w j)
            | _, _ =>
                Returns (false, out)
                  (mkMachine (withErr (Some ErrNotFound) (withOutput o (iter s))) w j)
            end
        end.
Proof.
  intros Hin Hidx.
  destruct (retryLoop_fetchOnce retryBudget s inp Hin) as (e & o & w & n & Hretry).
  exists e, o, w, n. split; [done|].
  unfold nextPage, retry. run. rewrite Hretry. run. cbn.
  destruct o as [p|]; [|done]. run.
  destruct e as [err|]; cbn.
  { rewrite Hidx. cbn. by destruct (responsesOf p t). }
  destruct (responsesOf p t) as [|item items] eqn:Hitems; cbn.
  { by rewrite Hidx. }
  rewrite Hidx. unfold index. cbn. run.
  rewrite bool_decide_eq_false_2 by done.
  change (Z.to_nat 0) with 0%nat. cbn.
  destruct (itr_unmarshal (iter s) item out) as [out' e']. cbn.
  unfold withIdx, withErr, withOutput. cbn. by rewrite Hidx.
Qed.

Lemma Next_stopped s out err :
  itr_err (iter s) = Some err → Next out s = Returns (false, out) s.
Proof. intros Herr. unfold Next. run. by rewrite Herr. Qed.

Lemma Next_buffered s out p :
  itr_err (iter s) = None → itr_output (iter s) = Some p →
  0 ≤ itr_idx (iter s) < Z.of_nat (length (responsesOf p (tableOf (iter s)))) →
  ∃ item,
    responsesOf p (tableOf (iter s)) !! Z.to_nat (itr_idx (iter s)) = Some item
    ∧ Next out s =
        let r := itr_unmarshal (iter s) item out in
        Returns (bool_decide (r.2 = None), r.1)
          (mkMachine (withIdx (itr_idx (iter s) + 1) (withErr r.2 (iter s)))
             (client s) (journal s)).
Proof.
  intros Herr Hout [Hlo Hhi]. unfold tableOf in *.
  destruct (lookup_lt_is_Some_2 (responsesOf p (Name (table (batch (itr_bg (iter s))))))
              (Z.to_nat (itr_idx (iter s)))) as [item Hitem]; [lia|].
  exists item. split; [done|].
  unfold Next. run. rewrite Herr, Hout.
  rewrite (proj2 (Z.ltb_lt _ _) Hhi).
  unfold nextBuffered, index. run.
  rewrite (proj2 (Z.ltb_ge _ _) Hlo), Hitem. run.
  by destruct (itr_unmarshal (iter s) item out) as [out' e'].
Qed.

(** The branches of [Next] that go past line 177. *)
Lemma Next_nextFetch s out :
  itr_err (iter s) = None →
  Z.of_nat (length (pageItems (iter s))) ≤ itr_idx (iter s) →
  Next out s = nextFetch (tableOf (iter s)) out s.
Proof.
  intros Herr Hidx. unfold Next, pageItems, tableOf in *. run. rewrite Herr.
  destruct (itr_output (iter s)) as [p|]; [|done].
  by rewrite (proj2 (Z.ltb_ge _ _) Hidx).
Qed.

Lemma Next_exhausted s out p inp :
  itr_err (iter s) = None → itr_output (iter s) = Some p →
  itr_input (iter s) = Some inp →
  Z.of_nat (length (responsesOf p (tableOf (iter s)))) ≤ itr_idx (iter s) →
  size (UnprocessedKeys p) = 0%nat →
  Next out s = Returns (false, out) s.
Proof.
  intros Herr Hout Hin Hidx Hun.
  rewrite Next_nextFetch by (by unfold pageItems; rewrite ?Hout).
  unfold nextFetch, nextRequest. run. rewrite Hin. run. rewrite Hout.
  rewrite (proj2 (Z.leb_le _ _) Hidx).
  by rewrite bool_decide_eq_true_2.
Qed.

Lemma Next_refetch s out p inp :
  itr_err (iter s) = None → itr_output (iter s) = Some p →
  itr_input (iter s) = Some inp →
  Z.of_nat (length (responsesOf p (tableOf (iter s)))) ≤ itr_idx (iter s) →
  size (UnprocessedKeys p) ≠ 0%nat →
  Next out s =
    nextPage (tableOf (iter s)) out
      (mkMachine
         (withBackoff (NextBackOff (itr_backoff (iter s))).2
            (withIdx 0
               (withInput (Some (setRequestItems (UnprocessedKeys p) inp)) (iter s))))
         (client s)
         (journal s ++ [EvSleep (NextBackOff (itr_backoff (iter s))).1])).
Proof.
  intros Herr Hout Hin Hidx Hun.
  rewrite Next_nextFetch by (by unfold pageItems; rewrite ?Hout).
  unfold nextFetch, nextRequest. run. rewrite Hin. run. rewrite Hout.
  rewrite (proj2 (Z.leb_le _ _) Hidx).
  rewrite bool_decide_eq_false_2 by done. rewrite Hin. run.
  by destruct (NextBackOff (itr_backoff (iter s))) as [d b].
Qed.

Lemma Next_first s out :
  itr_err (iter s) = None → itr_output (iter s) = None →
  itr_input (iter s) = None → itr_idx (iter s) = 0 →
  Next out s =
    match input (itr_bg (iter s)) with
    | Returns inp bg' =>
        nextPage (tableOf (iter s)) out
          (mkMachine (withInput (Some inp) (withBG bg' (iter s))) (client s) (journal s))
    | Panics bg' => Panics (mkMachine (withBG bg' (iter s)) (client s) (journal s))
    | OutOfFuel bg' => OutOfFuel (mkMachine (withBG bg' (iter s)) (client s) (journal s))
    end.
Proof.
  intros Herr Hout Hin Hidx.
  rewrite Next_nextFetch by (by unfold pageItems; rewrite ?Hout, ?Hidx).
  unfold nextFetch, nextRequest, onBG. run. rewrite Hin. run.
  destruct (input (itr_bg (iter s))) as [inp bg'| |]; [|done..].
  run. cbn. by rewrite Hout.
Qed.

(** *** The journal *)

Lemma calls_app (j1 j2 : list event) : calls (j1 ++ j2) = calls j1 ++ calls j2.
Proof. unfold calls. apply omap_app. Qed.

Lemma calls_replicate n inp :
  calls (replicate n (EvBatchGetItem inp)) = replicate n inp.
Proof. induction n as [|n IH]; [done|]. cbn. by rewrite <- IH. Qed.

Lemma calls_grow (j j' : list event) inp n :
  calls (j ++ j' ++ replicate (S n) (EvBatchGetItem inp)) ≠ calls j.
Proof.
  rewrite !calls_app, calls_replicate. intros Heq.
  apply (f_equal length) in Heq. rewrite !length_app in Heq. cbn in Heq. lia.
Qed.

(** *** The invariant *)

Lemma wellFormed_new (bg : BatchGet Query) fn err : wellFormed (newBGIter bg fn err).
Proof.
  split; [|by intros [? [=]]]. unfold cursorInBounds, pageItems. cbn. lia.
Qed.

(** What holds after lines 197-212, run from a cursor at 0 with a request
    at hand: the invariant, the calls journalled, and an error recorded
    whenever the result is false. *)
Lemma nextPage_post t out s inp :
  itr_input (iter s) = Some inp → itr_idx (iter s) = 0 →
  t = tableOf (iter s) →
  wellFormed (iter (state_of (nextPage t out s)))
  ∧ (∃ n, journal (state_of (nextPage t out s))
          = journal s ++ replicate (S n) (EvBatchGetItem inp))
  ∧ 0 ≤ itr_idx (iter (state_of (nextPage t out s))) ≤ 1
  ∧ (∀ out' s', nextPage t out s = Returns (false, out') s' →
       is_Some (itr_err (iter s'))).
Proof.
  intros Hin Hidx ->.
  destruct (nextPage_cases (tableOf (iter s)) out s inp Hin Hidx)
    as (e & o & w & n & _ & ->).
  destruct o as [p|]; cbn.
  - destruct e as [err|]; [|destruct (responsesOf p (tableOf (iter s))) eqn:Hitems];
      cbn; (split; [split|split; [by exists n|split]]);
      try (unfold cursorInBounds, pageItems, tableOf in *; cbn; rewrite ?Hidx, ?Hitems;
           cbn; lia);
      try (intros _; cbn; by rewrite Hin);
      try (rewrite ?Hidx; lia);
      try (intros ?? [= <- <-]; by cbn).
    intros out' s' Heq. injection Heq as Hdec _ <-. cbn.
    apply bool_decide_eq_false_1 in Hdec.
    by destruct (itr_unmarshal (iter s) g out).2.
  - split; [split|split; [by exists n|split]]; try done.
    + unfold cursorInBounds, pageItems. cbn. rewrite Hidx. lia.
    + rewrite Hidx. lia.
Qed.

(** Every call of [Next] keeps the invariant, whatever its outcome. *)
Lemma Next_wellFormed s out :
  wellFormed (iter s) → wellFormed (iter (state_of (Next out s))).
Proof.
  intros [Hcur Hreq].
  destruct (itr_err (iter s)) as [err|] eqn:Herr.
  { by rewrite (Next_stopped s out err). }
  unfold cursorInBounds in Hcur.
  destruct (decide (itr_idx (iter s) < Z.of_nat (length (pageItems (iter s)))))
    as [Hlt|Hge].
  - unfold pageItems in Hlt, Hcur.
    destruct (itr_output (iter s)) as [p|] eqn:Hout; [|cbn in Hlt; lia].
    destruct (Next_buffered s out p Herr Hout) as (item & _ & ->); [lia|].
    cbn. split.
    + unfold cursorInBounds, pageItems, tableOf in *. cbn. rewrite Hout. lia.
    + intros _. cbn. apply Hreq. by eexists.
  - destruct (itr_output (iter s)) as [p|] eqn:Hout.
    + destruct Hreq as [inp Hin]; [by eexists|].
      assert (Hlen : Z.of_nat (length (responsesOf p (tableOf (iter s))))
                     ≤ itr_idx (iter s)).
      { unfold pageItems in Hge. rewrite Hout in Hge. lia. }
      destruct (decide (size (UnprocessedKeys p) = 0%nat)) as [Hun|Hun].
      * rewrite (Next_exhausted s out p inp) by done. cbn.
        split; [done|]. intros _. by rewrite Hin.
      * rewrite (Next_refetch s out p inp) by done.
        by apply (nextPage_post _ _ _ (setRequestItems (UnprocessedKeys p) inp)).
    + assert (Hidx : itr_idx (iter s) = 0).
      { unfold pageItems in Hcur. rewrite Hout in Hcur. cbn in Hcur. lia. }
      destruct (itr_input (iter s)) as [inp|] eqn:Hin.
      * rewrite Next_nextFetch
          by (by unfold pageItems; rewrite ?Hout, ?Hidx).
        unfold nextFetch, nextRequest. run. rewrite Hin. run. rewrite Hout.
        by apply (nextPage_post _ _ _ inp).
      * rewrite Next_first by done.
        pose proof (input_batch (itr_bg (iter s))) as Hbatch.
        destruct (input (itr_bg (iter s))) as [inp bg'|bg'|bg']; cbn in Hbatch.
        -- apply (nextPage_post _ _ _ inp); [done..|].
           unfold tableOf. cbn. by rewrite Hbatch.
        -- cbn. split; [|by intros [? Hsome]; cbn in Hsome; rewrite Hout in Hsome].
           unfold cursorInBounds, pageItems. cbn. rewrite Hout, Hidx. cbn. lia.
        -- cbn. split; [|by intros [? Hsome]; cbn in Hsome; rewrite Hout in Hsome].
           unfold cursorInBounds, pageItems. cbn. rewrite Hout, Hidx. cbn. lia.
Qed.

Lemma reachable_wellFormed s : reachable s → wellFormed (iter s).
Proof.
  induction 1 as [bg fn err w j|s out r s' _ IH Hnext].
  - apply wellFormed_new.
  - pose proof (Next_wellFormed s out IH) as Hwf. by rewrite Hnext in Hwf.
Qed.

(** *** The five ways through [Next] *)

(** From a well-formed state, [Next] either (1) stops at line 165,
    (2) hands out a buffered item, (3) stops at line 187, (4) goes on to
    lines 197-212 with a request at hand and the cursor at 0, having
    journalled no call yet, or (5) fails to build its first request. *)
Lemma Next_cases s out :
  wellFormed (iter s) →
  (is_Some (itr_err (iter s)) ∧ Next out s = Returns (false, out) s)
  ∨ (itr_err (iter s) = None
     ∧ itr_idx (iter s) < Z.of_nat (length (pageItems (iter s)))
     ∧ ∃ item, let r := itr_unmarshal (iter s) item out in
         Next out s =
           Returns (bool_decide (r.2 = None), r.1)
             (mkMachine (withIdx (itr_idx (iter s) + 1) (withErr r.2 (iter s)))
                (client s) (journal s)))
  ∨ (itr_err (iter s) = None
     ∧ itr_idx (iter s) = Z.of_nat (length (pageItems (iter s)))
     ∧ (∃ p, itr_output (iter s) = Some p ∧ size (UnprocessedKeys p) = 0%nat)
     ∧ Next out s = Returns (false, out) s)
  ∨ (itr_err (iter s) = None
     ∧ itr_idx (iter s) = Z.of_nat (length (pageItems (iter s)))
     ∧ (∀ p, itr_output (iter s) = Some p → size (UnprocessedKeys p) ≠ 0%nat)
     ∧ (itr_input (iter s) = None →
          ∃ inp bg', input (itr_bg (iter s)) = Returns inp bg')
     ∧ ∃ s0 inp j',
         Next out s = nextPage (tableOf (iter s0)) out s0
         ∧ itr_input (iter s0) = Some inp ∧ itr_idx (iter s0) = 0
         ∧ journal s0 = journal s ++ j' ∧ calls j' = [])
  ∨ (itr_err (iter s) = None ∧ itr_input (iter s) = None
     ∧ (∀ inp bg', input (itr_bg (iter s)) ≠ Returns inp bg')
     ∧ journal (state_of (Next out s)) = journal s
     ∧ ∀ r s', Next out s ≠ Returns r s').
Proof.
  intros [Hcur Hreq].
  destruct (itr_err (iter s)) as [err|] eqn:Herr.
  { left. split; [by eexists|]. by apply (Next_stopped s out err). }
  right. unfold cursorInBounds in Hcur.
  destruct (decide (itr_idx (iter s) < Z.of_nat (length (pageItems (iter s)))))
    as [Hlt|Hge].
  { left. do 2 (split; [done|]). unfold pageItems in Hlt, Hcur.
    destruct (itr_output (iter s)) as [p|] eqn:Hout; [|cbn in Hlt; lia].
    destruct (Next_buffered s out p Herr Hout) as (item & _ & Hnext); [lia|].
    by exists item. }
  right. assert (Hend : itr_idx (iter s) = Z.of_nat (length (pageItems (iter s)))) by lia.
  destruct (itr_output (iter s)) as [p|] eqn:Hout.
  - destruct Hreq as [inp Hin]; [by eexists|].
    assert (Hlen : Z.of_nat (length (responsesOf p (tableOf (iter s))))
                   ≤ itr_idx (iter s)).
    { unfold pageItems in Hge. rewrite Hout in Hge. lia. }
    destruct (decide (size (UnprocessedKeys p) = 0%nat)) as [Hun|Hun].
    + left. do 2 (split; [done|]). split; [by exists p|].
      by apply (Next_exhausted s out p inp).
    + right; left. do 2 (split; [done|]).
      split; [by intros ? [= <-]|]. split; [by rewrite Hin|].
      rewrite (Next_refetch s out p inp) by done.
      match goal with |- context [nextPage _ _ ?st] => exists st end.
      by eexists (setRequestItems (UnprocessedKeys p) inp), [EvSleep _].
  - assert (Hidx : itr_idx (iter s) = 0).
    { unfold pageItems in Hcur. rewrite Hout in Hcur. cbn in Hcur. lia. }
    destruct (itr_input (iter s)) as [inp|] eqn:Hin.
    + right; left. do 2 (split; [done|]). split; [done|]. split; [done|].
      exists s, inp, []. rewrite app_nil_r. split; [|done].
      rewrite Next_nextFetch by (by unfold pageItems; rewrite ?Hout, ?Hidx).
      unfold nextFetch, nextRequest. run. rewrite Hin. run. by rewrite Hout.
    + pose proof (Next_first s out Herr Hout Hin Hidx) as Hnext.
      pose proof (input_batch (itr_bg (iter s))) as Hbatch.
      destruct (input (itr_bg (iter s))) as [inp bg'|bg'|bg'] eqn:Hbuild;
        cbn in Hbatch.
      * right; left. do 2 (split; [done|]). split; [done|]. split; [by eauto|].
        rewrite Hnext.
        match goal with |- context [nextPage _ _ ?st] => exists st end.
        exists inp, []. rewrite app_nil_r. split; [|done].
        f_equal. unfold tableOf. cbn. by rewrite Hbatch.
      * right; right. do 3 (split; [done|]). rewrite Hnext. by split.
      * right; right. do 3 (split; [done|]). rewrite Hnext. by split.
Qed.

(** *** Claims about single calls of [Next] *)

Lemma Next_false_fixed s out out' s' :
  wellFormed (iter s) → Next out s = Returns (false, out') s' →
  ∀ out2, Next out2 s' = Returns (false, out2) s'.
Proof.
  intros Hwf Hnext out2.
  destruct (Next_cases s out Hwf)
    as [[[err Herr] Heq]|[(Herr & Hlt & item & Heq)|[(Herr & Hend & (p & Hout & Hun) & Heq)
       |[(Herr & Hend & Hun & _ & s0 & inp & j' & Heq & Hin & Hidx & _)
       |(_ & _ & _ & _ & Hno)]]]].
  - rewrite Heq in Hnext. injection Hnext as _ <-. by apply (Next_stopped _ _ err).
  - cbv zeta in Heq. rewrite Heq in Hnext. injection Hnext as Hdec _ <-.
    apply bool_decide_eq_false_1 in Hdec.
    destruct (itr_unmarshal (iter s) item out) as [out1 [err|]]; [|done].
    by apply (Next_stopped _ _ err).
  - rewrite Heq in Hnext. injection Hnext as _ <-.
    destruct Hwf as [Hcur [inp Hin]]; [by eexists|].
    apply (Next_exhausted s out2 p inp); try done.
    unfold pageItems in Hend. rewrite Hout in Hend. lia.
  - rewrite Heq in Hnext.
    destruct (nextPage_post (tableOf (iter s0)) out s0 inp Hin Hidx eq_refl)
      as (_ & _ & _ & Hfalse).
    destruct (Hfalse out' s' Hnext) as [err Herr'].
    by apply (Next_stopped _ _ err).
  - by destruct (Hno (false, out') s').
Qed.

(** C6.  Once [Next] has returned false, every later call returns false and
    leaves the machine as it is: [Err] keeps its value (an error or nil) and
    the journal gets no further client call. *)
Theorem Next_false_is_final s out out' s' :
  reachable s → Next out s = Returns (false, out') s' →
  ∀ outs,
    NextEach outs s' = Returns ((λ o, (false, o)) <$> outs) s'
    ∧ Err (state_of (NextEach outs s')) = Err s'
    ∧ calls (journal (state_of (NextEach outs s'))) = calls (journal s').
Proof.
  intros Hreach Hnext outs.
  assert (Hfix : NextEach outs s' = Returns ((λ o, (false, o)) <$> outs) s').
  { induction outs as [|out2 outs IH]; [done|].
    cbn [NextEach]. run.
    rewrite (Next_false_fixed s out out' s' (reachable_wellFormed s Hreach) Hnext).
    by rewrite IH. }
  by rewrite Hfix.
Qed.

(** C7, as amended.  In every state an iterator reaches, the cursor lies
    in [0, len(items of the page at hand)] (it is 0 before the first page),
    and every call of [Next] keeps it there.  [Next] calls the client
    exactly when no terminal error is set, the cursor equals the length of
    the page's item list, the page at hand (if any) has unprocessed keys,
    and the first request, if still to be built, can be built. *)
Theorem cursor_bounds_and_fetch s out :
  reachable s →
  cursorInBounds (iter s)
  ∧ cursorInBounds (iter (state_of (Next out s)))
  ∧ (fetchesPage out s ↔
       itr_err (iter s) = None
       ∧ itr_idx (iter s) = Z.of_nat (length (pageItems (iter s)))
       ∧ (∀ p, itr_output (iter s) = Some p → size (UnprocessedKeys p) ≠ 0%nat)
       ∧ (itr_input (iter s) = None →
            ∃ inp bg', input (itr_bg (iter s)) = Returns inp bg')).
Proof.
  intros Hreach. pose proof (reachable_wellFormed s Hreach) as Hwf.
  split; [apply Hwf|]. split; [by apply Next_wellFormed|].
  unfold fetchesPage.
  destruct (Next_cases s out Hwf)
    as [[[err Herr] Heq]|[(Herr & Hlt & item & Heq)|[(Herr & Hend & (p & Hout & Hun) & Heq)
       |[(Herr & Hend & Hun & Hbuild & s0 & inp & j' & Heq & Hin & Hidx & Hj & Hcalls)
       |(Herr & Hin & Hbuild & Hj & _)]]]].
  - rewrite Heq. cbn. split; [done|]. intros [Hnone _]. by rewrite Herr in Hnone.
  - rewrite Heq. cbn. split; [done|]. intros (_ & Hend & _). lia.
  - rewrite Heq. cbn. split; [done|]. intros (_ & _ & Hmore & _).
    by destruct (Hmore p Hout).
  - split; [done|]. intros _. rewrite Heq.
    destruct (nextPage_post (tableOf (iter s0)) out s0 inp Hin Hidx eq_refl)
      as (_ & [n ->] & _). rewrite Hj, <- app_assoc. apply calls_grow.
  - rewrite Hj. split; [done|]. intros (_ & _ & _ & Hok).
    destruct (Hok Hin) as (inp & bg' & Hinp). by destruct (Hbuild inp bg').
Qed.


(** C5.  When the iterator starts without an error and the first fetch
    (the retried client call) leaves a page with no item for the table,
    the first call of [Next] returns false and [Err] is [ErrNotFound]. *)
Theorem first_page_without_items (bg : BatchGet Query) fn w j out inp bg' e s1 p :
  bg_err bg = None →
  input bg = Returns inp bg' →
  retry fetchOnce (mkMachine (withInput (Some inp) (newBGIter bg' fn None)) w j)
    = Returns e s1 →
  itr_output (iter s1) = Some p →
  responsesOf p (Name (table (batch bg))) = [] →
  ∃ s', Next out (mkMachine (newBGIter bg fn (bg_err bg)) w j) = Returns (false, out) s'
        ∧ Err s' = Some ErrNotFound.
Proof.
  intros Hnoerr Hbuild Hretry Hout Hitems. rewrite Hnoerr.
  rewrite Next_first by done. cbn. rewrite Hbuild.
  destruct (nextPage_cases (Name (table (batch bg))) out
              (mkMachine (withInput (Some inp) (newBGIter bg' fn None)) w j)
              inp eq_refl eq_refl) as (e' & o & w' & n & Hretry' & Hpage).
  change (withInput (Some inp) (withBG bg' (newBGIter bg fn None)))
    with (withInput (Some inp) (newBGIter bg' fn None)).
  unfold tableOf. cbn [iter itr_bg newBGIter].
  rewrite Hpage. rewrite Hretry in Hretry'. injection Hretry' as -> ->.
  cbn in Hout. subst o. rewrite Hitems.
  eexists. split; [by destruct e'|]. by destruct e'.
Qed.

(** *** Draining whole pages *)

Lemma drain_buffered fn suf : ∀ pre (bg0 : BatchGet Query) inp p b w j out fuel,
  responsesOf p (Name (table (batch bg0))) = pre ++ suf →
  (∀ item d, item ∈ suf → (fn item d).2 = None) →
  drain (length suf + fuel) out
    (mkMachine (mkBGIter bg0 (Some inp) (Some p) None (Z.of_nat (length pre)) b fn) w j)
  = drain fuel (foldl (λ d item, (fn item d).1) out suf)
      (mkMachine
         (mkBGIter bg0 (Some inp) (Some p) None (Z.of_nat (length (pre ++ suf))) b fn)
         w j).
Proof.
  induction suf as [|item suf IH]; intros pre bg0 inp p b w j out fuel Hitems Hok.
  { by rewrite app_nil_r. }
  cbn [length Nat.add drain foldl]. run.
  edestruct (Next_buffered
               (mkMachine (mkBGIter bg0 (Some inp) (Some p) None
                             (Z.of_nat (length pre)) b fn) w j) out p)
    as (item' & Hlook & ->); [done|done|..].
  { unfold tableOf. cbn. rewrite Hitems, length_app. cbn. lia. }
  unfold tableOf in Hlook. cbn in Hlook.
  rewrite Hitems, Nat2Z.id, list_lookup_middle in Hlook by done.
  injection Hlook as <-. cbn.
  rewrite (Hok item out) by apply list_elem_of_here. cbn.
  replace (Z.of_nat (length pre) + 1) with (Z.of_nat (length (pre ++ [item])))
    by (rewrite length_app; cbn; lia).
  fields. rewrite (IH (pre ++ [item])).
  - by rewrite <- app_assoc.
  - by rewrite <- app_assoc.
  - intros item' d Hin. apply Hok. by apply list_elem_of_further.
Qed.

Lemma nextPage_first_item fn (bg0 : BatchGet Query) inp o b w j out p w' item rest :
  BatchGetItem inp w = ((Some p, None), w') →
  responsesOf p (Name (table (batch bg0))) = item :: rest →
  (fn item out).2 = None →
  nextPage (Name (table (batch bg0))) out
    (mkMachine (mkBGIter bg0 (Some inp) o None 0 b fn) w j)
  = Returns (true, (fn item out).1)
      (mkMachine (mkBGIter bg0 (Some inp) (Some p) None 1 b fn) w'
         (j ++ [EvBatchGetItem inp])).
Proof.
  intros Hcall Hitems Hok.
  set (s0 := mkMachine (mkBGIter bg0 (Some inp) o None 0 b fn) w j).
  destruct (nextPage_cases (Name (table (batch bg0))) out s0 inp eq_refl eq_refl)
    as (e & o' & w'' & n & Hretry & ->).
  rewrite (retry_fetchOnce_ok s0 inp (Some p) w' eq_refl Hcall) in Hretry.
  injection Hretry as <- <- <- Hj. apply app_inv_head in Hj.
  destruct n; [|done]. rewrite Hitems. cbn. by rewrite Hok.
Qed.

Lemma drain_pages fn (bg0 : BatchGet Query) pages : ∀ inp o b w j out fuel,
  serves w inp pages →
  lastPageCompletes pages →
  Forall (λ p, responsesOf p (Name (table (batch bg0))) ≠ []) pages →
  (∀ item d, item ∈ itemsOf (Name (table (batch bg0))) pages → (fn item d).2 = None) →
  ∃ s',
    ('(more, out') ← nextPage (Name (table (batch bg0))) out;
     if more : bool
     then drain (length (itemsOf (Name (table (batch bg0))) pages) + fuel) out'
     else mret out')
      (mkMachine (mkBGIter bg0 (Some inp) o None 0 b fn) w j)
    = Returns (foldl (λ d item, (fn item d).1) out
                 (itemsOf (Name (table (batch bg0))) pages)) s'
    ∧ Err s' = None
    ∧ length (calls (journal s')) = (length (calls j) + length pages)%nat.
Proof.
  induction pages as [|p ps IH]; intros inp o b w j out fuel Hserves Hlast Hfull Hok;
    [done|].
  destruct Hserves as (w' & Hcall & Hserves).
  apply Forall_cons in Hfull as [Hp Hfull].
  unfold itemsOf in *. cbn [fmap list_fmap concat] in *.
  destruct (responsesOf p (Name (table (batch bg0)))) as [|item rest] eqn:Hitems;
    [done|].
  run.
  rewrite (nextPage_first_item fn bg0 inp o b w j out p w' item rest Hcall Hitems)
    by (apply Hok, list_elem_of_here).
  set (later := concat ((λ p0, responsesOf p0 (Name (table (batch bg0)))) <$> ps))
    in *.
  rewrite (length_app (item :: rest)), (foldl_app _ (item :: rest)).
  cbn [foldl length].
  replace (S (length rest) + length later + fuel)%nat
    with (length rest + S (length later + fuel))%nat by lia.
  pose proof (drain_buffered fn rest [item] bg0 inp p b w'
                (j ++ [EvBatchGetItem inp]) (fn item out).1
                (S (length later + fuel)) Hitems) as Hbuf.
  cbn [length app] in Hbuf. change (Z.of_nat 1) with 1 in Hbuf.
  rewrite Hbuf.
  2: { intros item' d Hin. apply Hok. apply list_elem_of_further.
       apply elem_of_app. by left. }
  clear Hbuf. cbn [drain]. run.
  destruct ps as [|p' ps'].
  - cbn in Hlast.
    rewrite (Next_exhausted _ _ p inp); try done.
    + eexists. split; [done|]. split; [done|].
      cbn. rewrite calls_app, length_app. cbn. lia.
    + unfold tableOf. cbn. rewrite Hitems. cbn. lia.
  - destruct Hlast as [Hmore Hlast].
    rewrite (Next_refetch _ _ p inp); try done.
    2: { unfold tableOf. cbn. rewrite Hitems. cbn. lia. }
    fields.
    destruct (IH (setRequestItems (UnprocessedKeys p) inp) (Some p)
                (NextBackOff b).2 w'
                ((j ++ [EvBatchGetItem inp]) ++ [EvSleep (NextBackOff b).1])
                (foldl (λ d item0, (fn item0 d).1) (fn item out).1 rest) fuel)
      as (s' & Hrun & Herr & Hcalls); try done.
    { intros item' d Hin. apply Hok. apply list_elem_of_further.
      apply elem_of_app. by right. }
    run. rewrite Hrun.
    exists s'. split; [done|]. split; [done|].
    rewrite Hcalls, !calls_app, !length_app. cbn. lia.
Qed.

Lemma foldl_view {V} (view : Dest → list V) (decoded : Item → V) fn items : ∀ out,
  (∀ item d, item ∈ items → view (fn item d).1 = view d ++ [decoded item]) →
  view (foldl (λ d item, (fn item d).1) out items) = view out ++ (decoded <$> items).
Proof.
  induction items as [|item items IH]; intros out Hview; cbn.
  { by rewrite app_nil_r. }
  rewrite IH by (intros ???; by apply Hview, list_elem_of_further).
  rewrite (Hview item out) by apply list_elem_of_here. by rewrite <- app_assoc.
Qed.

(** C3, as amended.  Take a batch without a sticky error whose request
    builds, a client that answers it and each follow-up request with the
    next of one or more pages, each page with at least one item and only
    the last without unprocessed keys, and a decoder that appends every
    one of the N items without error.  Then [All], given more than N
    rounds, returns nil, has appended the N decoded items in the order of
    arrival, and has called the client once per page. *)
Theorem All_delivers_every_item {V} (view : Dest → list V) (decoded : Item → V)
    (bg : BatchGet Query) out w inp bg' pages :
  bg_err bg = None →
  input bg = Returns inp bg' →
  serves w inp pages →
  lastPageCompletes pages →
  Forall (λ p, responsesOf p (Name (table (batch bg))) ≠ []) pages →
  (∀ item d, item ∈ itemsOf (Name (table (batch bg))) pages →
     (unmarshalAppend item d).2 = None
     ∧ view (unmarshalAppend item d).1 = view d ++ [decoded item]) →
  ∀ fuel, (length (itemsOf (Name (table (batch bg))) pages) < fuel)%nat →
  ∃ out' s',
    All fuel bg out w = Returns (None, out') s'
    ∧ view out' = view out ++ (decoded <$> itemsOf (Name (table (batch bg))) pages)
    ∧ length (calls (journal s')) = length pages.
Proof.
  intros Hnoerr Hbuild Hserves Hlast Hfull Hdec fuel Hfuel.
  pose proof (input_batch bg) as Hbatch. rewrite Hbuild in Hbatch. cbn in Hbatch.
  rewrite <- Hbatch in *.
  destruct (drain_pages unmarshalAppend bg' pages inp None
              (SetMaxElapsedTime 0 NewExponentialBackOff) w [] out
              (fuel - S (length (itemsOf (Name (table (batch bg'))) pages)))
              Hserves Hlast Hfull) as (s' & Hrun & Herr & Hcalls).
  { intros item d Hin. by apply Hdec. }
  eexists _, s'. split; [|split; [|exact Hcalls]].
  - unfold All.
    replace fuel
      with (S (length (itemsOf (Name (table (batch bg'))) pages)
               + (fuel - S (length (itemsOf (Name (table (batch bg'))) pages)))))
      at 1 by lia.
    cbn [drain]. run. rewrite Hnoerr.
    rewrite Next_first by done. cbn [iter itr_bg newBGIter]. rewrite Hbuild.
    unfold newBGIter. fields. rewrite <- ?Hbatch.
    run. rewrite Hrun. by rewrite Herr.
  - apply foldl_view. intros item d Hin. by apply Hdec.
Qed.

(** C8.  [Table.Batch] with 0, 1 or 2 names gives a batch without error,
    the first name as hash key and the second as range key.  With 3 names
    or more it returns (it does not panic) a batch that holds an error, and
    every builder derived from that batch carries the same error: [All]
    returns it and leaves [out] alone, and the iterator of [Iter] stops at
    once with it. *)
Theorem Batch_key_names (t : Table) (names : list string) :
  ((length names ≤ 2)%nat →
     table (newBatch t names) = t
     ∧ b_err (newBatch t names) = None
     ∧ hashKey (newBatch t names) = nth 0 names ""
     ∧ rangeKey (newBatch t names) = nth 1 names "")
  ∧ ((3 ≤ length names)%nat →
     ∃ err,
       b_err (newBatch t names) = Some err
       ∧ ∀ bg : BatchGet Query, derivedFrom (newBatch t names) bg →
           bg_err bg = Some err
           ∧ (∀ fuel out w,
                All (S fuel) bg out w
                = Returns (Some err, out)
                    (mkMachine (newBGIter bg unmarshalAppend (Some err)) w []))
           ∧ (∀ out w j,
                Next out (mkMachine (Iter bg) w j)
                = Returns (false, out) (mkMachine (Iter bg) w j)
                ∧ Err (mkMachine (Iter bg) w j) = Some err)).
Proof.
  split.
  - intros Hlen. destruct names as [|h [|r [|x names]]]; cbn in *; [done..|lia].
  - intros Hlen. destruct names as [|h [|r [|x names]]]; cbn in Hlen; [lia..|].
    eexists. split; [done|]. intros bg Hder.
    pose proof (derivedFrom_sticky (newBatch t (h :: r :: x :: names)) _ bg
                  eq_refl Hder) as Hbg.
    split; [done|]. split.
    + intros fuel out w. unfold All. cbn [drain]. run. rewrite Hbg.
      by erewrite Next_stopped.
    + intros out w j. unfold Iter, Err. rewrite Hbg. split; [|done].
      by erewrite Next_stopped.
Qed.

End IteratorFacts.

(** * Further properties of the request builder *)

Section BuilderMore.

Context {Any Query : Type} `{!QueryOps Any Query}.

Implicit Types (bg : BatchGet Query) (b : Batch) (keys : list (Keyed Any)).

Lemma add1_queryOf bg key :
  reqs (add1 bg key) = reqs bg ++ [queryOf (batch bg) key]
  ∧ bg_err (add1 bg key) = firstError [bg_err bg; offeredError (batch bg) key]
  ∧ projection (add1 bg key) = projection bg
  ∧ consistent (add1 bg key) = consistent bg.
Proof.
  unfold add1, offeredError, firstError, setError. unfold queryOf.
  destruct (RangeKey key) as [rk|]; [case_bool_decide|]; cbn;
    destruct (bg_err bg) as [e0|] eqn:Hbg; cbn; rewrite ?Hbg; try done.
  match goal with |- context [Query_err ?q] => by destruct (Query_err q) end.
Qed.

Lemma firstError_cons_cons e1 e2 (es : list (option error)) :
  firstError (firstError [e1; e2] :: es) = firstError (e1 :: e2 :: es).
Proof. unfold firstError. by destruct e1, e2. Qed.

(** X1.  [add] appends one query per key, in the order of the keys, behind the
    queries already there, and leaves the batch and both flags alone.  The
    error it leaves is the first of: the error already held, then the
    errors of the queries that got a range condition, in key order. *)
Theorem add_appends_queries keys bg :
  reqs (add keys bg) = reqs bg ++ (queryOf (batch bg) <$> keys)
  ∧ bg_err (add keys bg)
    = firstError (bg_err bg :: (offeredError (batch bg) <$> keys))
  ∧ batch (add keys bg) = batch bg
  ∧ projection (add keys bg) = projection bg
  ∧ consistent (add keys bg) = consistent bg.
Proof.
  unfold add. revert bg. induction keys as [|key keys IH]; intros bg; cbn [foldl].
  { cbn. rewrite app_nil_r. unfold firstError. cbn. by destruct (bg_err bg). }
  destruct (IH (add1 bg key)) as (Hreqs & Herr & Hbatch & Hproj & Hcons).
  destruct (add1_queryOf bg key) as (Hreqs1 & Herr1 & Hproj1 & Hcons1).
  rewrite Hreqs, Herr, Hbatch, Hproj, Hcons, add1_batch, Hreqs1, Herr1, Hproj1, Hcons1.
  cbn [fmap list_fmap]. rewrite <- app_assoc. cbn [app].
  by rewrite firstError_cons_cons.
Qed.

(** X2.  When no key gets a range condition (the batch names no range key, or no
    key has a range value), [add] records no error at all: the errors that
    the plain queries may hold are not looked at. *)
Theorem add_ignores_errors_of_plain_queries keys bg :
  (rangeKey (batch bg) = "" ∨ Forall (λ key, RangeKey key = None) keys) →
  bg_err (add keys bg) = bg_err bg
  ∧ reqs (add keys bg)
    = reqs bg ++ ((λ key, Table_Get (table (batch bg)) (hashKey (batch bg)) (HashKey key))
                    <$> keys).
Proof.
  intros Hplain.
  destruct (add_appends_queries keys bg) as (-> & -> & _).
  assert (Hkeys : Forall (λ key,
            offeredError (batch bg) key = None
            ∧ queryOf (batch bg) key
              = Table_Get (table (batch bg)) (hashKey (batch bg)) (HashKey key)) keys).
  { destruct Hplain as [Hnone|Hnone].
    - apply Forall_forall. intros key _. unfold offeredError, queryOf.
      rewrite Hnone. by destruct (RangeKey key).
    - eapply Forall_impl; [exact Hnone|]. intros key Hkey.
      unfold offeredError, queryOf. by rewrite Hkey. }
  clear Hplain. split.
  - unfold firstError. cbn. destruct (bg_err bg); [done|]. cbn.
    induction Hkeys as [|key keys [Hoff _] _ IH]; [done|]. cbn. by rewrite Hoff.
  - f_equal. induction Hkeys as [|key keys [_ Hq] _ IH]; [done|]. cbn.
    by rewrite Hq, IH.
Qed.

(** X3.  The first key whose range condition fails decides the error of
    [Batch.Get] on a batch without error: errors of later keys are dropped. *)
Theorem Get_first_range_error b keys1 key keys2 e :
  b_err b = None →
  Forall (λ k, offeredError b k = None) keys1 →
  offeredError b key = Some e →
  bg_err (Get b (keys1 ++ key :: keys2)) = Some e.
Proof.
  intros Hb Hfirst Hkey. unfold Get.
  destruct (add_appends_queries (keys1 ++ key :: keys2)
              (mkBatchGet b [] "" false (b_err b))) as (_ & -> & _).
  cbn. rewrite Hb. unfold firstError. cbn. rewrite fmap_app, omap_app. cbn.
  rewrite Hkey. cbn.
  replace (omap id (offeredError b <$> keys1)) with (@nil error); [done|].
  induction Hfirst as [|k ks Hk _ IH]; [done|]. cbn. by rewrite Hk.
Qed.

(** X4.  [Get] followed by [And] is [Get] on all the keys at once: the
    same queries in the same order, and the same error. *)
Theorem Get_And_compose b keys1 keys2 :
  And keys2 (Get b keys1) = Get b (keys1 ++ keys2).
Proof. unfold And, Get, add. by rewrite foldl_app. Qed.

Lemma projectAll_reqs bg :
  reqs (projectAll bg) = (λ q, Query_Project [Query_projection q] q) <$> reqs bg.
Proof.
  unfold projectAll.
  assert (Hgen : ∀ qs acc,
    reqs (foldl (λ acc get,
             let get' := Query_Project [Query_projection get] get in
             setError (Query_err get') (withReqs (reqs acc ++ [get']) acc)) acc qs)
    = reqs acc ++ ((λ q, Query_Project [Query_projection q] q) <$> qs)).
  { induction qs as [|q qs IH]; intros acc; cbn; [by rewrite app_nil_r|].
    rewrite IH. unfold setError. cbn. destruct (bg_err acc); cbn;
      by rewrite <- app_assoc. }
  by rewrite Hgen.
Qed.

Lemma projectAll_sticky bg e : bg_err bg = Some e → bg_err (projectAll bg) = Some e.
Proof.
  unfold projectAll. intros Herr.
  assert (Hgen : ∀ qs acc, bg_err acc = Some e →
    bg_err (foldl (λ acc get,
             let get' := Query_Project [Query_projection get] get in
             setError (Query_err get') (withReqs (reqs acc ++ [get']) acc)) acc qs)
    = Some e).
  { induction qs as [|q qs IH]; intros acc Hacc; cbn; [done|].
    apply IH. by apply setError_sticky. }
  by apply Hgen.
Qed.

Lemma mergeKeys_cons q (qs : list Query) :
  mergeKeys (q :: qs)
  = Some (mkKeysAndAttributes
            (AttributesToGet (Query_keysAndAttribs q))
            (ConsistentRead (Query_keysAndAttribs q))
            (ExpressionAttributeNames (Query_keysAndAttribs q))
            (Keys (Query_keysAndAttribs q) ++ (Query_keys <$> qs))
            (ProjectionExpression (Query_keysAndAttribs q))).
Proof.
  unfold mergeKeys. cbn [foldl].
  assert (Hgen : ∀ qs k,
    foldl (λ kas get,
             match kas with
             | None => Some (Query_keysAndAttribs get)
             | Some k => Some (appendKey (Query_keys get) k)
             end) (Some k) qs
    = Some (mkKeysAndAttributes (AttributesToGet k) (ConsistentRead k)
              (ExpressionAttributeNames k) (Keys k ++ (Query_keys <$> qs))
              (ProjectionExpression k))).
  { clear. induction qs as [|q qs IH]; intros k; cbn.
    - rewrite app_nil_r. by destruct k.
    - rewrite IH. cbn. by rewrite <- app_assoc. }
  apply Hgen.
Qed.

(** X5.  With at least one query, [input] returns a request with exactly one
    table entry, under the table's name.  Its descriptor is the one of the
    first query with the keys of the other queries added in order; the
    batch's projection, when set, and its consistent flag, when on, replace
    those of the first query; with a projection every query is projected
    first. *)
Theorem input_merges_queries bg :
  reqs bg ≠ [] →
  let qs := if bool_decide (projection bg ≠ "")
            then (λ q, Query_Project [Query_projection q] q) <$> reqs bg
            else reqs bg in
  ∃ q rest bg',
    qs = q :: rest
    ∧ reqs bg' = qs
    ∧ input bg
      = Returns
          (mkBatchGetItemInput
             {[Name (table (batch bg)) :=
                 Some (mkKeysAndAttributes
                         (AttributesToGet (Query_keysAndAttribs q))
                         (if consistent bg then Some true
                          else ConsistentRead (Query_keysAndAttribs q))
                         (ExpressionAttributeNames (Query_keysAndAttribs q))
                         (Keys (Query_keysAndAttribs q) ++ (Query_keys <$> rest))
                         (if bool_decide (projection bg ≠ "")
                          then Some (projection bg)
                          else ProjectionExpression (Query_keysAndAttribs q)))]}
             None)
          bg'.
Proof.
  intros Hne qs. subst qs. unfold input. run. unfold id.
  destruct (bool_decide (projection bg ≠ "")) eqn:Hp; cbn.
  - destruct (projectAll_flags bg) as [Hproj Hcons]. rewrite Hproj, Hcons, Hp.
    pose proof (projectAll_batch bg) as Hbatch.
    rewrite (projectAll_reqs bg).
    destruct (reqs bg) as [|q0 qs0] eqn:Hreqs; [done|]. cbn [fmap list_fmap].
    rewrite mergeKeys_cons. cbn.
    eexists _, _, (projectAll bg). split; [done|].
    split; [by rewrite projectAll_reqs, Hreqs|].
    rewrite Hbatch. by destruct (consistent bg).
  - rewrite Hp. destruct (reqs bg) as [|q0 qs0] eqn:Hreqs; [done|].
    rewrite mergeKeys_cons. cbn.
    eexists _, _, bg. split; [done|]. split; [done|].
    by destruct (consistent bg).
Qed.

(** X6.  Whatever its outcome, [input] leaves the batch, the projection, the
    consistent flag and the number of queries of the builder as they are
    and keeps an error already recorded; without a projection it leaves the
    whole builder as it is. *)
Theorem input_keeps_builder bg :
  batch (state_of (input bg)) = batch bg
  ∧ projection (state_of (input bg)) = projection bg
  ∧ consistent (state_of (input bg)) = consistent bg
  ∧ length (reqs (state_of (input bg))) = length (reqs bg)
  ∧ (∀ e, bg_err bg = Some e → bg_err (state_of (input bg)) = Some e)
  ∧ (projection bg = "" → state_of (input bg) = bg).
Proof.
  assert (Hstate : state_of (input bg)
                   = if bool_decide (projection bg ≠ "") then projectAll bg else bg).
  { unfold input. run. unfold id.
    destruct (bool_decide (projection bg ≠ "")) eqn:Hp; cbn.
    - destruct (projectAll_flags bg) as [-> ->]. rewrite Hp.
      destruct (mergeKeys (reqs (projectAll bg))); cbn; [|done].
      by destruct (consistent bg).
    - rewrite Hp. destruct (consistent bg); cbn; [|done].
      by destruct (mergeKeys (reqs bg)). }
  rewrite Hstate. case_bool_decide as Hp.
  - destruct (projectAll_flags bg) as [Hproj Hcons].
    split; [apply projectAll_batch|]. split; [done|]. split; [done|].
    split; [apply projectAll_reqs_length|]. split; [|done].
    intros e. apply projectAll_sticky.
  - by repeat split.
Qed.

End BuilderMore.

(** * Further properties of the iterator *)

Section IteratorMore.

Context {Any Query Dest BackOff World : Type}.
Context `{!QueryOps Any Query, !Unmarshal Dest, !BackOffOps BackOff,
          !Client World, !RetryPolicy}.

Implicit Types (s : machine Query Dest BackOff World) (out : Dest)
  (itr : bgIter Query Dest BackOff) (inp : BatchGetItemInput)
  (p : BatchGetItemOutput) (e : option error) (t : string)
  (fn : unmarshalFunc Dest) (b : BackOff) (w : World) (j : list event).

(** The branch of [Next] that fetches, with what it keeps of the state. *)
Lemma Next_fetching s out :
  wellFormed (iter s) → itr_err (iter s) = None →
  itr_idx (iter s) = Z.of_nat (length (pageItems (iter s))) →
  (∀ p, itr_output (iter s) = Some p → size (UnprocessedKeys p) ≠ 0%nat) →
  ready (iter s) →
  ∃ s0 inp,
    Next out s = nextPage (tableOf (iter s)) out s0
    ∧ itr_input (iter s0) = Some inp ∧ itr_idx (iter s0) = 0
    ∧ itr_unmarshal (iter s0) = itr_unmarshal (iter s)
    ∧ tableOf (iter s0) = tableOf (iter s)
    ∧ client s0 = client s.
Proof.
  intros [Hcur Hreq] Herr Hend Hun Hready.
  destruct (itr_output (iter s)) as [p|] eqn:Hout.
  - destruct Hreq as [inp Hin]; [by eexists|].
    assert (Hlen : Z.of_nat (length (responsesOf p (tableOf (iter s))))
                   ≤ itr_idx (iter s)).
    { unfold pageItems in Hend. rewrite Hout in Hend. lia. }
    rewrite (Next_refetch s out p inp) by eauto.
    by eexists _, _.
  - assert (Hidx : itr_idx (iter s) = 0).
    { unfold pageItems in Hend. by rewrite Hout in Hend. }
    destruct (itr_input (iter s)) as [inp|] eqn:Hin.
    + exists s, inp. repeat split; try done.
      rewrite Next_nextFetch by (by unfold pageItems; rewrite ?Hout, ?Hidx).
      unfold nextFetch, nextRequest. run. rewrite Hin. run. by rewrite Hout.
    + rewrite Next_first by done.
      destruct (Hready Hin) as (inp & bg' & Hbuild). rewrite Hbuild.
      eexists _, inp. repeat split; try done.
      pose proof (input_batch (itr_bg (iter s))) as Hbatch.
      rewrite Hbuild in Hbatch. unfold tableOf. cbn in *. by rewrite Hbatch.
Qed.

(** The output left by the retried call is the one of a call of the client. *)
Lemma retryLoop_fetchOnce_answer budget s inp :
  itr_input (iter s) = Some inp →
  ∃ e o w j' w0,
    retryLoop budget fetchOnce s = Returns e (mkMachine (withOutput o (iter s)) w j')
    ∧ BatchGetItem inp w0 = ((o, e), w).
Proof.
  revert s. induction budget as [|n IH]; intros s Hin; cbn [retryLoop]; run;
    rewrite (fetchOnce_eq s inp Hin);
    destruct (BatchGetItem inp (client s)) as [[o e] w] eqn:Hcall; cbn.
  - destruct e as [err|]; [destruct (canRetry err)|];
      by eexists _, o, w, _, (client s).
  - destruct e as [err|]; [destruct (canRetry err)|].
    2,3: by eexists _, o, w, _, (client s).
    edestruct (IH (mkMachine (withOutput o (iter s)) w
                     (journal s ++ [EvBatchGetItem inp])))
      as (e' & o' & w' & j' & w0 & -> & Hcall'); [done|].
    by exists e', o', w', j', w0.
Qed.

(** X7.  A decode error on a buffered item.  [Next] returns false, [Err] is
    the decoder's error, the client is not called, and the iterator stays
    stopped. *)
Theorem decode_error_stops_iteration s out p item err :
  itr_err (iter s) = None → itr_output (iter s) = Some p →
  0 ≤ itr_idx (iter s) →
  responsesOf p (tableOf (iter s)) !! Z.to_nat (itr_idx (iter s)) = Some item →
  (itr_unmarshal (iter s) item out).2 = Some err →
  ∃ s',
    Next out s = Returns (false, (itr_unmarshal (iter s) item out).1) s'
    ∧ Err s' = Some err
    ∧ journal s' = journal s ∧ client s' = client s
    ∧ ∀ out2, Next out2 s' = Returns (false, out2) s'.
Proof.
  intros Herr Hout Hlo Hitem Hdec.
  destruct (Next_buffered s out p Herr Hout) as (item' & Hitem' & Hnext).
  { split; [done|]. apply lookup_lt_Some in Hitem. lia. }
  rewrite Hitem in Hitem'. injection Hitem' as <-.
  cbv zeta in Hnext. rewrite Hdec in Hnext. eexists. split; [exact Hnext|].
  split; [done|]. split; [done|]. split; [done|].
  intros out2. by apply (Next_stopped _ _ err).
Qed.

(** X8.  A decode error on the first item of the first page.  The error of
    the decoder is what [Err] reports; it is not turned into [ErrNotFound]. *)
Theorem decode_error_on_first_item (bg : BatchGet Query) fn w j out inp bg' p w'
    item rest err :
  bg_err bg = None →
  input bg = Returns inp bg' →
  BatchGetItem inp w = ((Some p, None), w') →
  responsesOf p (Name (table (batch bg))) = item :: rest →
  (fn item out).2 = Some err →
  ∃ s',
    Next out (mkMachine (newBGIter bg fn (bg_err bg)) w j)
    = Returns (false, (fn item out).1) s'
    ∧ Err s' = Some err
    ∧ journal s' = j ++ [EvBatchGetItem inp].
Proof.
  intros Hnoerr Hbuild Hcall Hitems Hdec. rewrite Hnoerr.
  rewrite Next_first by done. cbn [iter itr_bg newBGIter client journal].
  rewrite Hbuild. unfold tableOf. cbn [iter itr_bg newBGIter].
  set (s0 := mkMachine (withInput (Some inp) (withBG bg' (newBGIter bg fn None))) w j).
  destruct (nextPage_cases (Name (table (batch bg))) out s0 inp eq_refl eq_refl)
    as (e & o & w'' & n & Hretry & ->).
  rewrite (retry_fetchOnce_ok s0 inp (Some p) w' eq_refl Hcall) in Hretry.
  injection Hretry as <- <- <- Hj. apply app_inv_head in Hj.
  destruct n; [|done].
  rewrite Hitems. cbv zeta. cbn [iter itr_unmarshal withInput withBG newBGIter s0].
  rewrite Hdec. eexists. split; [done|]. by split.
Qed.

(** X9.  What a true result of [Next] means.  [Err] is nil, the cursor is
    past an item of the page at hand, and [out] holds what the decoder made
    of exactly that item, without a decode error. *)
Theorem Next_true_hands_out_item s out out' s' :
  reachable s → Next out s = Returns (true, out') s' →
  Err s' = None
  ∧ 1 ≤ itr_idx (iter s')
  ∧ ∃ item,
      pageItems (iter s') !! Z.to_nat (itr_idx (iter s') - 1) = Some item
      ∧ itr_unmarshal (iter s) item out = (out', None).
Proof.
  intros Hreach Hnext. pose proof (reachable_wellFormed s Hreach) as Hwf.
  destruct (itr_err (iter s)) as [err|] eqn:Herr.
  { by rewrite (Next_stopped s out err) in Hnext. }
  destruct (decide (itr_idx (iter s) < Z.of_nat (length (pageItems (iter s)))))
    as [Hlt|Hge].
  - destruct Hwf as [Hcur _]. unfold cursorInBounds in Hcur.
    unfold pageItems in Hlt, Hcur.
    destruct (itr_output (iter s)) as [p|] eqn:Hout; [|cbn in Hlt; lia].
    destruct (Next_buffered s out p Herr Hout) as (item & Hitem & Heq); [lia|].
    cbv zeta in Heq. rewrite Heq in Hnext. injection Hnext as Hdec <- <-.
    apply bool_decide_eq_true_1 in Hdec.
    destruct (itr_unmarshal (iter s) item out) as [out1 e1] eqn:Hr. cbn in *. subst e1.
    split; [done|]. split; [lia|]. exists item. split; [|done].
    unfold pageItems, tableOf. cbn. rewrite Hout.
    by replace (itr_idx (iter s) + 1 - 1) with (itr_idx (iter s)) by lia.
  - destruct (Next_cases s out Hwf)
      as [[[err Herr'] _]|[(_ & Hlt & _)|[(_ & _ & _ & Heq)
         |[(_ & Hend & Hun & Hbuild & _)|(_ & _ & _ & _ & Hno)]]]].
    + by rewrite Herr in Herr'.
    + lia.
    + by rewrite Heq in Hnext.
    + destruct (Next_fetching s out Hwf Herr Hend Hun Hbuild)
        as (s0 & inp & Heq & Hin & Hidx & Hfn & Htable & _).
      rewrite Heq in Hnext.
      destruct (nextPage_cases (tableOf (iter s)) out s0 inp Hin Hidx)
        as (e & o & w & n & _ & Hpage).
      rewrite Hpage in Hnext. rewrite <- Hfn.
      destruct o as [p|]; [|done].
      destruct e as [err|]; [done|].
      destruct (responsesOf p (tableOf (iter s))) as [|item rest] eqn:Hitems; [done|].
      cbv zeta in Hnext. injection Hnext as Hdec <- <-.
      apply bool_decide_eq_true_1 in Hdec.
      destruct (itr_unmarshal (iter s0) item out) as [out1 e1] eqn:Hr.
      cbn in *. subst e1.
      split; [done|]. split; [lia|]. exists item. split; [|done].
      unfold pageItems. cbn.
      change (tableOf (withIdx 1 (withErr None (withOutput (Some p) (iter s0)))))
        with (tableOf (iter s0)).
      by rewrite Htable, Hitems.
    + by destruct (Hno (true, out') s').
Qed.

(** X10.  [Next] returns false and leaves [Err] nil exactly at the clean end:
    no error held, a page at hand, the cursor at its end and no unprocessed
    keys.  Every other false result leaves an error. *)
Theorem Next_false_without_error_iff_exhausted s out :
  reachable s →
  (∃ out' s', Next out s = Returns (false, out') s' ∧ Err s' = None)
  ↔ (itr_err (iter s) = None
     ∧ ∃ p, itr_output (iter s) = Some p
            ∧ itr_idx (iter s) = Z.of_nat (length (pageItems (iter s)))
            ∧ size (UnprocessedKeys p) = 0%nat).
Proof.
  intros Hreach. pose proof (reachable_wellFormed s Hreach) as Hwf. split.
  - intros (out' & s' & Hnext & Hnil).
    destruct (Next_cases s out Hwf)
      as [[[err Herr] Heq]|[(Herr & Hlt & item & Heq)|[(Herr & Hend & (p & Hout & Hun) & Heq)
         |[(Herr & Hend & Hun & _ & s0 & inp & j' & Heq & Hin & Hidx & _)
         |(_ & _ & _ & _ & Hno)]]]].
    + rewrite Heq in Hnext. injection Hnext as _ <-.
      unfold Err in Hnil. by rewrite Herr in Hnil.
    + cbv zeta in Heq. rewrite Heq in Hnext. injection Hnext as Hdec _ <-.
      apply bool_decide_eq_false_1 in Hdec. by unfold Err in Hnil.
    + split; [done|]. by exists p.
    + rewrite Heq in Hnext.
      destruct (nextPage_post (tableOf (iter s0)) out s0 inp Hin Hidx eq_refl)
        as (_ & _ & _ & Hfalse).
      destruct (Hfalse out' s' Hnext) as [err Herr'].
      unfold Err in Hnil. by rewrite Herr' in Hnil.
    + by destruct (Hno (false, out') s').
  - intros (Herr & p & Hout & Hend & Hun).
    destruct Hwf as [_ [inp Hin]]; [by eexists|].
    exists out, s. split; [|done].
    apply (Next_exhausted s out p inp); try done.
    unfold pageItems in Hend. rewrite Hout in Hend. lia.
Qed.

(** *** No panic with a client that always answers *)

Lemma Next_returns s out :
  wellFormed (iter s) → ready (iter s) → alwaysAnswers →
  ∃ r s', Next out s = Returns r s'
          ∧ wellFormed (iter s') ∧ ready (iter s').
Proof.
  intros Hwf Hready Hanswers.
  assert (Hpost : ∀ r s', Next out s = Returns r s' → wellFormed (iter s')).
  { intros r s' Heq. pose proof (Next_wellFormed s out Hwf) as Hwf'.
    by rewrite Heq in Hwf'. }
  destruct (Next_cases s out Hwf)
    as [[_ Heq]|[(Herr & Hlt & item & Heq)|[(_ & _ & _ & Heq)
       |[(Herr & Hend & Hun & Hbuild & _)|(_ & Hin & Hno & _)]]]].
  - eexists _, _. split; [exact Heq|]. by split.
  - cbv zeta in Heq. eexists _, _. split; [exact Heq|].
    split; [by eapply Hpost|]. exact Hready.
  - eexists _, _. split; [exact Heq|]. by split.
  - destruct (Next_fetching s out Hwf Herr Hend Hun Hbuild)
      as (s0 & inp & Heq & Hin & Hidx & _).
    destruct (nextPage_cases (tableOf (iter s)) out s0 inp Hin Hidx)
      as (e & o & w & n & Hretry & Hpage).
    destruct (retryLoop_fetchOnce_answer retryBudget s0 inp Hin)
      as (e2 & o2 & w2 & j2 & w0 & Hretry2 & Hcall).
    unfold retry in Hretry. rewrite Hretry2 in Hretry.
    injection Hretry as -> -> -> _. destruct (Hanswers inp w0) as [p Hp]. rewrite Hcall in Hp.
    cbn in Hp. subst o. rewrite Heq, Hpage.
    destruct e as [err|]; [|destruct (responsesOf p (tableOf (iter s)))]; cbv zeta;
      eexists _, _; (split; [reflexivity|]);
      (split; [eapply Hpost; by rewrite Heq, Hpage|]);
      intros Hnone; cbn in Hnone; by rewrite Hin in Hnone.
  - destruct (Hready Hin) as (inp & bg' & Hbuild). by destruct (Hno inp bg').
Qed.

Lemma drain_never_panics fuel : ∀ s out,
  wellFormed (iter s) → ready (iter s) → alwaysAnswers →
  ∀ s', drain fuel out s ≠ Panics s'.
Proof.
  induction fuel as [|n IH]; intros s out Hwf Hready Hanswers s'; [done|].
  cbn [drain]. run.
  destruct (Next_returns s out Hwf Hready Hanswers) as ([more out1] & s1 & -> & Hwf1 & Hready1).
  destruct more; [by apply IH|done].
Qed.

(** X11.  With at least one key in the batch and a client that never returns a
    nil output (as the SDK's client does), [All] does not panic, however
    many pages, errors, empty pages or decode errors it meets. *)
Theorem All_never_panics (bg : BatchGet Query) fuel out w :
  reqs bg ≠ [] → alwaysAnswers → ∀ s', All fuel bg out w ≠ Panics s'.
Proof.
  intros Hkeys Hanswers s'. unfold All. run.
  pose proof (drain_never_panics fuel
                (mkMachine (newBGIter bg unmarshalAppend (bg_err bg)) w []) out
                (wellFormed_new _ _ _)) as Hdrain.
  destruct (drain fuel out _) as [out1 s1|s1|s1] eqn:Hrun; [done| |done].
  destruct (Hdrain) with (s' := s1); try done.
  intros _. cbn. by apply input_returns.
Qed.

(** *** The journal of a whole run *)

Lemma nextPage_first_item_any fn (bg0 : BatchGet Query) inp o b w j out p w' item rest :
  BatchGetItem inp w = ((Some p, None), w') →
  responsesOf p (Name (table (batch bg0))) = item :: rest →
  nextPage (Name (table (batch bg0))) out
    (mkMachine (mkBGIter bg0 (Some inp) o None 0 b fn) w j)
  = Returns (bool_decide ((fn item out).2 = None), (fn item out).1)
      (mkMachine (mkBGIter bg0 (Some inp) (Some p) (fn item out).2 1 b fn) w'
         (j ++ [EvBatchGetItem inp])).
Proof.
  intros Hcall Hitems.
  set (s0 := mkMachine (mkBGIter bg0 (Some inp) o None 0 b fn) w j).
  destruct (nextPage_cases (Name (table (batch bg0))) out s0 inp eq_refl eq_refl)
    as (e & o' & w'' & n & Hretry & ->).
  rewrite (retry_fetchOnce_ok s0 inp (Some p) w' eq_refl Hcall) in Hretry.
  injection Hretry as <- <- <- Hj. apply app_inv_head in Hj.
  destruct n; [|done]. by rewrite Hitems.
Qed.

Lemma drain_buffered_part fn mid : ∀ pre post (bg0 : BatchGet Query) inp p b w j out fuel,
  responsesOf p (Name (table (batch bg0))) = pre ++ mid ++ post →
  (∀ item d, item ∈ mid → (fn item d).2 = None) →
  drain (length mid + fuel) out
    (mkMachine (mkBGIter bg0 (Some inp) (Some p) None (Z.of_nat (length pre)) b fn) w j)
  = drain fuel (foldl (λ d item, (fn item d).1) out mid)
      (mkMachine
         (mkBGIter bg0 (Some inp) (Some p) None (Z.of_nat (length (pre ++ mid))) b fn)
         w j).
Proof.
  induction mid as [|item mid IH]; intros pre post bg0 inp p b w j out fuel Hitems Hok.
  { by rewrite app_nil_r. }
  cbn [length Nat.add drain foldl]. run.
  edestruct (Next_buffered
               (mkMachine (mkBGIter bg0 (Some inp) (Some p) None
                             (Z.of_nat (length pre)) b fn) w j) out p)
    as (item' & Hlook & ->); [done|done|..].
  { unfold tableOf. cbn. rewrite Hitems, !length_app. cbn. lia. }
  unfold tableOf in Hlook. cbn in Hlook.
  rewrite Hitems, Nat2Z.id in Hlook. cbn in Hlook.
  rewrite list_lookup_middle in Hlook by done.
  injection Hlook as <-. cbn.
  rewrite (Hok item out) by apply list_elem_of_here. cbn.
  replace (Z.of_nat (length pre) + 1) with (Z.of_nat (length (pre ++ [item])))
    by (rewrite length_app; cbn; lia).
  fields. rewrite (IH (pre ++ [item]) post).
  - by rewrite <- app_assoc.
  - rewrite Hitems. by rewrite <- !app_assoc.
  - intros item' d Hin. apply Hok. by apply list_elem_of_further.
Qed.

Lemma drain_pages_journal fn (bg0 : BatchGet Query) pages : ∀ inp o b w j out fuel,
  serves w inp pages →
  lastPageCompletes pages →
  Forall (λ p, responsesOf p (Name (table (batch bg0))) ≠ []) pages →
  (∀ item d, item ∈ itemsOf (Name (table (batch bg0))) pages → (fn item d).2 = None) →
  ∃ s',
    ('(more, out') ← nextPage (Name (table (batch bg0))) out;
     if more : bool
     then drain (length (itemsOf (Name (table (batch bg0))) pages) + fuel) out'
     else mret out')
      (mkMachine (mkBGIter bg0 (Some inp) o None 0 b fn) w j)
    = Returns (foldl (λ d item, (fn item d).1) out
                 (itemsOf (Name (table (batch bg0))) pages)) s'
    ∧ Err s' = None
    ∧ journal s' = j ++ EvBatchGetItem inp :: followUps inp b pages.
Proof.
  induction pages as [|p ps IH]; intros inp o b w j out fuel Hserves Hlast Hfull Hok;
    [done|].
  destruct Hserves as (w' & Hcall & Hserves).
  apply Forall_cons in Hfull as [Hp Hfull].
  unfold itemsOf in *. cbn [fmap list_fmap concat] in *.
  destruct (responsesOf p (Name (table (batch bg0)))) as [|item rest] eqn:Hitems;
    [done|].
  run.
  rewrite (nextPage_first_item fn bg0 inp o b w j out p w' item rest Hcall Hitems)
    by (apply Hok, list_elem_of_here).
  set (later := concat ((λ p0, responsesOf p0 (Name (table (batch bg0)))) <$> ps))
    in *.
  rewrite (length_app (item :: rest)), (foldl_app _ (item :: rest)).
  cbn [foldl length].
  replace (S (length rest) + length later + fuel)%nat
    with (length rest + S (length later + fuel))%nat by lia.
  pose proof (drain_buffered fn rest [item] bg0 inp p b w'
                (j ++ [EvBatchGetItem inp]) (fn item out).1
                (S (length later + fuel)) Hitems) as Hbuf.
  cbn [length app] in Hbuf. change (Z.of_nat 1) with 1 in Hbuf.
  rewrite Hbuf.
  2: { intros item' d Hin. apply Hok. apply list_elem_of_further.
       apply elem_of_app. by left. }
  clear Hbuf. cbn [drain]. run.
  destruct ps as [|p' ps'].
  - cbn in Hlast.
    rewrite (Next_exhausted _ _ p inp); try done.
    + eexists. split; [done|]. by split.
    + unfold tableOf. cbn. rewrite Hitems. cbn. lia.
  - destruct Hlast as [Hmore Hlast].
    rewrite (Next_refetch _ _ p inp); try done.
    2: { unfold tableOf. cbn. rewrite Hitems. cbn. lia. }
    fields.
    destruct (IH (setRequestItems (UnprocessedKeys p) inp) (Some p)
                (NextBackOff b).2 w'
                ((j ++ [EvBatchGetItem inp]) ++ [EvSleep (NextBackOff b).1])
                (foldl (λ d item0, (fn item0 d).1) (fn item out).1 rest) fuel)
      as (s' & Hrun & Herr & Hjournal); try done.
    { intros item' d Hin. apply Hok. apply list_elem_of_further.
      apply elem_of_app. by right. }
    run. rewrite Hrun.
    exists s'. split; [done|]. split; [done|].
    rewrite Hjournal. cbn [followUps]. by rewrite <- !app_assoc.
Qed.

(** X12.  The whole conversation of [All] with the client, when the pages
    arrive as in C3.  It is the first request, and then, for every page but
    the last, one sleep followed by one request for exactly that page's
    unprocessed keys; the delays are the successive values of the one
    backoff made by [newBGIter], which is never reset. *)
Theorem All_journal_of_pages (bg : BatchGet Query) out w inp bg' pages :
  bg_err bg = None →
  input bg = Returns inp bg' →
  serves w inp pages →
  lastPageCompletes pages →
  Forall (λ p, responsesOf p (Name (table (batch bg))) ≠ []) pages →
  (∀ item d, item ∈ itemsOf (Name (table (batch bg))) pages →
     (unmarshalAppend item d).2 = None) →
  ∀ fuel, (length (itemsOf (Name (table (batch bg))) pages) < fuel)%nat →
  ∃ out' s',
    All fuel bg out w = Returns (None, out') s'
    ∧ journal s'
      = EvBatchGetItem inp
          :: followUps inp (SetMaxElapsedTime 0 NewExponentialBackOff) pages.
Proof.
  intros Hnoerr Hbuild Hserves Hlast Hfull Hdec fuel Hfuel.
  pose proof (input_batch bg) as Hbatch. rewrite Hbuild in Hbatch. cbn in Hbatch.
  rewrite <- Hbatch in *.
  destruct (drain_pages_journal unmarshalAppend bg' pages inp None
              (SetMaxElapsedTime 0 NewExponentialBackOff) w [] out
              (fuel - S (length (itemsOf (Name (table (batch bg'))) pages)))
              Hserves Hlast Hfull Hdec) as (s' & Hrun & Herr & Hjournal).
  eexists _, s'. split; [|exact Hjournal].
  unfold All.
  replace fuel
    with (S (length (itemsOf (Name (table (batch bg'))) pages)
             + (fuel - S (length (itemsOf (Name (table (batch bg'))) pages)))))
    at 1 by lia.
  cbn [drain]. run. rewrite Hnoerr.
  rewrite Next_first by done. cbn [iter itr_bg newBGIter]. rewrite Hbuild.
  unfold newBGIter. fields. rewrite <- ?Hbatch.
  run. rewrite Hrun. by rewrite Herr.
Qed.

(** X13.  [All] and a decode error.  When the first page holds the items
    [pre], then an item the decoder rejects, then [post], [All] returns the
    decoder's error after one call of the client; [out] holds what the
    decoder made of [pre] and of the rejected item, and nothing of [post]. *)
Theorem All_stops_at_decode_error (bg : BatchGet Query) out w inp bg' p w'
    pre bad post err :
  bg_err bg = None →
  input bg = Returns inp bg' →
  BatchGetItem inp w = ((Some p, None), w') →
  responsesOf p (Name (table (batch bg))) = pre ++ bad :: post →
  (∀ item d, item ∈ pre → (unmarshalAppend item d).2 = None) →
  (∀ d, (unmarshalAppend bad d).2 = Some err) →
  ∀ fuel, (length pre < fuel)%nat →
  ∃ s',
    All fuel bg out w
    = Returns (Some err,
               (unmarshalAppend bad
                  (foldl (λ d item, (unmarshalAppend item d).1) out pre)).1) s'
    ∧ journal s' = [EvBatchGetItem inp].
Proof.
  intros Hnoerr Hbuild Hcall Hitems Hok Hbad fuel Hfuel.
  pose proof (input_batch bg) as Hbatch. rewrite Hbuild in Hbatch. cbn in Hbatch.
  rewrite <- Hbatch in Hitems.
  unfold All.
  replace fuel with (S (length pre + (fuel - S (length pre)))) by lia.
  cbn [drain]. run. rewrite Hnoerr.
  rewrite Next_first by done. cbn [iter itr_bg newBGIter]. rewrite Hbuild.
  unfold newBGIter. fields. rewrite <- ?Hbatch.
  destruct pre as [|item pre].
  - cbn [app] in Hitems.
    rewrite (nextPage_first_item_any unmarshalAppend bg' inp None _ w [] out p w'
               bad post Hcall Hitems).
    rewrite Hbad. cbn. eexists. by split.
  - cbn [app] in Hitems.
    rewrite (nextPage_first_item unmarshalAppend bg' inp None _ w [] out p w'
               item (pre ++ bad :: post) Hcall Hitems)
      by (apply Hok, list_elem_of_here).
    cbn [length app foldl].
    pose proof (drain_buffered_part unmarshalAppend pre [item] (bad :: post) bg' inp p
                  (SetMaxElapsedTime 0 NewExponentialBackOff) w'
                  [EvBatchGetItem inp] (unmarshalAppend item out).1
                  (S (fuel - S (S (length pre)))) Hitems) as Hbuf.
    cbn [length app] in Hbuf. change (Z.of_nat 1) with 1 in Hbuf.
    replace (S (length pre) + (fuel - S (S (length pre))))%nat
      with (length pre + S (fuel - S (S (length pre))))%nat by lia.
    rewrite Hbuf by (intros item' d Hin; by apply Hok, list_elem_of_further).
    clear Hbuf. cbn [drain]. run.
    edestruct (decode_error_stops_iteration
                 (mkMachine (mkBGIter bg' (Some inp) (Some p) None
                               (Z.of_nat (S (length pre)))
                               (SetMaxElapsedTime 0 NewExponentialBackOff)
                               unmarshalAppend) w'
                    [EvBatchGetItem inp])
                 (foldl (λ d item0, (unmarshalAppend item0 d).1)
                    (unmarshalAppend item out).1 pre) p bad err)
      as (s' & -> & Herr & Hj & _); try done; try (cbn; lia).
    + unfold tableOf. cbn [iter itr_bg itr_idx]. rewrite Hitems, Nat2Z.id.
      change (item :: pre ++ bad :: post) with ((item :: pre) ++ bad :: post).
      by apply list_lookup_middle.
    + cbn. apply Hbad.
    + cbn. exists s'. rewrite Herr. by split.
Qed.

(** *** What one call does to the outside *)

Lemma nextPage_journal t out s inp :
  itr_input (iter s) = Some inp → itr_idx (iter s) = 0 →
  ∃ n, journal (state_of (nextPage t out s))
       = journal s ++ replicate (S n) (EvBatchGetItem inp).
Proof.
  intros Hin Hidx.
  destruct (nextPage_cases t out s inp Hin Hidx) as (e & o & w & n & _ & ->).
  exists n. destruct o as [p|]; [|done].
  by destruct e, (responsesOf p t).
Qed.

(** X14.  One call of [Next] journals nothing, or, when no page is at hand,
    one or more calls of the client with one and the same request, or, when
    a page is at hand, exactly one sleep of the next backoff delay followed
    by one or more calls that all ask for that page's unprocessed keys.  So
    it never sleeps before the first request, never sleeps twice, and never
    asks for two pages. *)
Theorem Next_journal_step s out :
  reachable s →
  ∃ evs,
    journal (state_of (Next out s)) = journal s ++ evs
    ∧ (evs = []
       ∨ (itr_output (iter s) = None
          ∧ ∃ inp n, evs = replicate (S n) (EvBatchGetItem inp))
       ∨ (∃ p inp n,
            itr_output (iter s) = Some p ∧ itr_input (iter s) = Some inp
            ∧ evs = EvSleep (NextBackOff (itr_backoff (iter s))).1
                      :: replicate (S n)
                           (EvBatchGetItem (setRequestItems (UnprocessedKeys p) inp)))).
Proof.
  intros Hreach. destruct (reachable_wellFormed s Hreach) as [Hcur Hreq].
  destruct (itr_err (iter s)) as [err|] eqn:Herr.
  { rewrite (Next_stopped s out err) by done. exists []. rewrite app_nil_r. split; [done|]. by left. }
  unfold cursorInBounds in Hcur.
  destruct (decide (itr_idx (iter s) < Z.of_nat (length (pageItems (iter s)))))
    as [Hlt|Hge].
  - unfold pageItems in Hlt, Hcur.
    destruct (itr_output (iter s)) as [p|] eqn:Hout; [|cbn in Hlt; lia].
    destruct (Next_buffered s out p Herr Hout) as (item & _ & ->); [lia|].
    exists []. rewrite app_nil_r. split; [done|]. by left.
  - destruct (itr_output (iter s)) as [p|] eqn:Hout.
    + destruct Hreq as [inp Hin]; [by eexists|].
      assert (Hlen : Z.of_nat (length (responsesOf p (tableOf (iter s))))
                     ≤ itr_idx (iter s)).
      { unfold pageItems in Hge. rewrite Hout in Hge. lia. }
      destruct (decide (size (UnprocessedKeys p) = 0%nat)) as [Hun|Hun].
      * rewrite (Next_exhausted s out p inp) by done. exists []. rewrite app_nil_r. split; [done|]. by left.
      * rewrite (Next_refetch s out p inp) by done.
        edestruct (nextPage_journal (tableOf (iter s)) out) as [n ->];
          [reflexivity|reflexivity|].
        cbn [journal]. rewrite <- app_assoc. eexists. split; [reflexivity|].
        right; right. by exists p, inp, n.
    + assert (Hidx : itr_idx (iter s) = 0).
      { unfold pageItems in Hcur. rewrite Hout in Hcur. cbn in Hcur. lia. }
      destruct (itr_input (iter s)) as [inp|] eqn:Hin.
      * rewrite Next_nextFetch
          by (by unfold pageItems; rewrite ?Hout, ?Hidx).
        unfold nextFetch, nextRequest. run. rewrite Hin. run. rewrite Hout.
        destruct (nextPage_journal (tableOf (iter s)) out s inp Hin Hidx) as [n ->].
        eexists. split; [reflexivity|]. right; left. split; [done|]. by exists inp, n.
      * rewrite Next_first by done.
        destruct (input (itr_bg (iter s))) as [inp bg'|bg'|bg'];
          [|(exists []; rewrite app_nil_r; split; [done|by left])..].
        edestruct (nextPage_journal (tableOf (iter s)) out) as [n ->];
          [reflexivity|exact Hidx|].
        eexists. split; [reflexivity|]. right; left. split; [done|]. by exists inp, n.
Qed.

End IteratorMore.

(** * Runs of the model on the test doubles *)

Import Mock.

(** C1 at a failing input: the client answers every attempt with a
    throttling error next to an empty output, until the retry policy gives
    up after its third call.  [Next] returns false, yet [Err] is
    [ErrNotFound] and the transport error is lost: line 206 overwrites it,
    as the cursor is 0. *)
Theorem transport_error_reported_as_not_found :
  ∃ s', Next [] (start oneKey unmarshalAppend
                   (replicate 3 (Some emptyOutput, Some throttled)))
        = Returns (false, []) s'
        ∧ length (calls (journal s')) = 3%nat
        ∧ client s' = []
        ∧ Err s' = Some ErrNotFound
        ∧ Err s' ≠ Some throttled.
Proof. eexists. split; [vm_compute; reflexivity|]. by vm_compute. Qed.

(** C4 at a failing input: the first page has an item and leaves a key
    unprocessed, the second page is empty.  [All] has appended the item of
    the first page, and still returns [ErrNotFound]: line 192 puts the
    cursor back to 0 before every fetch, so the test of line 205 cannot
    tell a later page from the first. *)
Theorem later_empty_page_reported_as_not_found :
  ∃ s', All 3 twoKeys []
          [(Some (page [ann] (unprocessed ["2"])), None); (Some (page [] ∅), None)]
        = Returns (Some ErrNotFound, [ann]) s'
        ∧ length (calls (journal s')) = 2%nat.
Proof. eexists. split; [vm_compute; reflexivity|]. by vm_compute. Qed.

(** C9 at a failing input: the client returns an error and a nil output.
    [Next] panics at line 203, where it reads [itr.output.Responses] before
    it looks at the error. *)
Theorem Next_panics_on_nil_output :
  ∃ s', Next [] (start oneKey unmarshalAppend [(None, Some sendFailed)]) = Panics s'
        ∧ itr_err (iter s') = Some sendFailed
        ∧ itr_output (iter s') = None.
Proof. eexists. split; [vm_compute; reflexivity|]. by vm_compute. Qed.

(** C10 as stated fails: a BatchGet with no keys and no projection, made
    consistent, does not get a request from [input]; line 126 dereferences
    the nil descriptor. *)
Lemma input_panics_when_consistent :
  reqs (Consistent true noKeys) = []
  ∧ projection (Consistent true noKeys) = ""
  ∧ input (Consistent true noKeys) = Panics (Consistent true noKeys).
Proof. by vm_compute. Qed.

(** The amended C10 on the batch without keys, plain and made consistent. *)
Lemma input_without_keys_witness :
  input noKeys = Returns (mkBatchGetItemInput {["users" := None]} None) noKeys
  ∧ input (Consistent true noKeys) = Panics (Consistent true noKeys).
Proof.
  split.
  - apply (input_without_keys noKeys); reflexivity.
  - apply (input_without_keys (Consistent true noKeys)); [reflexivity|].
    right. reflexivity.
Defined.

(** C7 as stated fails: after the only item of a page without unprocessed
    keys has been handed out, the cursor equals the length of the page's
    item list, and the next call of [Next] fetches nothing. *)
Lemma no_fetch_at_end_of_last_page :
  let s1 := state_of (Next [] (start oneKey unmarshalAppend [(Some (page [ann] ∅), None)])) in
  reachable s1
  ∧ itr_idx (iter s1) = Z.of_nat (length (pageItems (iter s1)))
  ∧ ¬ fetchesPage [] s1.
Proof.
  split; [|split].
  - eapply (reachable_Next
              (start oneKey unmarshalAppend [(Some (page [ann] ∅), None)]) []);
      [apply reachable_new|]. vm_compute. reflexivity.
  - by vm_compute.
  - intros Hfetch. apply Hfetch. by vm_compute.
Qed.

(** The amended C7 on a fresh iterator: its first call of [Next] fetches. *)
Lemma cursor_bounds_and_fetch_witness :
  fetchesPage [] (start oneKey unmarshalAppend [(Some (page [ann] ∅), None)]).
Proof.
  apply (cursor_bounds_and_fetch
           (start oneKey unmarshalAppend [(Some (page [ann] ∅), None)]) []).
  - apply reachable_new.
  - split; [reflexivity|]. split; [reflexivity|]. split; [by intros p [=]|].
    intros _. eexists _, _. reflexivity.
Defined.

(** C3 as stated fails: the client returns the one item asked for over two
    pages, the first page being empty with the key unprocessed and the last
    page leaving nothing unprocessed; [All] appends nothing and returns
    [ErrNotFound], as the first page has no item. *)
Lemma All_not_found_when_first_page_is_empty :
  let pages := [page [] (unprocessed ["1"]); page [ann] ∅] in
  let w : Script := (λ p, (Some p, None)) <$> pages in
  bg_err oneKey = None
  ∧ (∃ inp bg', input oneKey = Returns inp bg' ∧ serves w inp pages)
  ∧ lastPageCompletes pages
  ∧ itemsOf "users" pages = [ann]
  ∧ ∀ fuel, (0 < fuel)%nat →
      ∃ s', All fuel oneKey [] w = Returns (Some ErrNotFound, []) s'.
Proof.
  split; [done|]. split; [|split; [by vm_compute|split; [by vm_compute|]]].
  - eexists _, _. split; [reflexivity|].
    eexists. split; [reflexivity|]. eexists. split; [reflexivity|]. exact I.
  - intros [|fuel] Hfuel; [lia|]. eexists. vm_compute. reflexivity.
Qed.

(** The amended C3 on two keys served over two pages of one item each. *)
Lemma All_delivers_every_item_witness :
  ∃ out' s',
    All 3 twoKeys []
      [(Some (page [ann] (unprocessed ["2"])), None); (Some (page [bob] ∅), None)]
    = Returns (None, out') s'
    ∧ out' = [ann; bob]
    ∧ length (calls (journal s')) = 2%nat.
Proof.
  eapply (All_delivers_every_item id id twoKeys []
            [(Some (page [ann] (unprocessed ["2"])), None); (Some (page [bob] ∅), None)]
            _ _ [page [ann] (unprocessed ["2"]); page [bob] ∅]).
  - reflexivity.
  - reflexivity.
  - eexists. split; [reflexivity|]. eexists. split; [reflexivity|]. exact I.
  - split; by vm_compute.
  - repeat constructor; by vm_compute.
  - intros item d _. split; reflexivity.
  - vm_compute. lia.
Defined.


(** C5 on one key that the table does not hold. *)
Lemma first_page_without_items_witness :
  ∃ s', Next [] (start oneKey unmarshalItem [(Some (page [] ∅), None)])
        = Returns (false, []) s'
        ∧ Err s' = Some ErrNotFound.
Proof.
  eapply (first_page_without_items oneKey unmarshalItem
            [(Some (page [] ∅), None)] [] [] _ _ _ _ (page [] ∅)).
  - reflexivity.
  - reflexivity.
  - reflexivity.
  - reflexivity.
  - reflexivity.
Defined.

(** C6 on the iterator that has just reported [ErrNotFound]. *)
Lemma Next_false_is_final_witness :
  let s := start oneKey unmarshalItem [(Some (page [] ∅), None)] in
  let s' := state_of (Next [] s) in
  NextEach [[]; [ann]] s' = Returns [(false, []); (false, [ann])] s'
  ∧ Err (state_of (NextEach [[]; [ann]] s')) = Some ErrNotFound
  ∧ calls (journal (state_of (NextEach [[]; [ann]] s'))) = calls (journal s').
Proof.
  intros s s'.
  assert (Hreach : reachable s) by apply reachable_new.
  assert (Hnext : Next [] s = Returns (false, []) s') by (vm_compute; reflexivity).
  destruct (Next_false_is_final s [] [] s' Hreach Hnext [[]; [ann]])
    as (Hruns & Herr & Hcalls).
  split; [exact Hruns|]. split; [|exact Hcalls].
  rewrite Herr. by vm_compute.
Defined.

(** C8 on the names ID, Month and on the names ID, Month, Day. *)
Lemma Batch_key_names_witness :
  (table (newBatch users ["ID"; "Month"]) = users
   ∧ b_err (newBatch users ["ID"; "Month"]) = None
   ∧ hashKey (newBatch users ["ID"; "Month"]) = "ID"
   ∧ rangeKey (newBatch users ["ID"; "Month"]) = "Month")
  ∧ ∃ err, ∀ w : Script,
      All 1 (Consistent true (Get (newBatch users ["ID"; "Month"; "Day"]) [key "1"])) [] w
      = Returns (Some err, [])
          (mkMachine
             (newBGIter
                (Consistent true (Get (newBatch users ["ID"; "Month"; "Day"]) [key "1"]))
                unmarshalAppend (Some err)) w []).
Proof.
  split.
  - apply (Batch_key_names (Query := Query) (Dest := list Item) (BackOff := nat)
             (World := Script) users ["ID"; "Month"]). cbn. lia.
  - destruct (Batch_key_names (Query := Query) (Dest := list Item) (BackOff := nat)
                (World := Script) users ["ID"; "Month"; "Day"]) as [_ Hmany].
    destruct Hmany as (err & _ & Hsticky); [cbn; lia|].
    exists err. intros w.
    apply (Hsticky (Consistent true
                      (Get (newBatch users ["ID"; "Month"; "Day"]) [key "1"]))).
    apply derived_Consistent, derived_Get.
Defined.

(** ** Runs for the further properties *)

(** X2 on keys with range values, for a batch that names no range key. *)
Lemma add_ignores_errors_of_plain_queries_witness :
  bg_err (add [keyOf "1" AttrNULL; keyOf "2" (AttrS "2015-10")] noKeys) = None
  ∧ length (reqs (add [keyOf "1" AttrNULL; keyOf "2" (AttrS "2015-10")] noKeys)) = 2%nat.
Proof.
  destruct (add_ignores_errors_of_plain_queries
              [keyOf "1" AttrNULL; keyOf "2" (AttrS "2015-10")] noKeys)
    as [Herr Hreqs].
  - left. reflexivity.
  - split; [exact Herr|]. rewrite Hreqs. reflexivity.
Defined.

(** X3 on three keys of which the second and the third have a NULL month. *)
Lemma Get_first_range_error_witness :
  bg_err (Get (QueryOps0 := strictQueries) (newBatch users ["ID"; "Month"])
            ([keyOf "1" (AttrS "2015-10")]
               ++ keyOf "2" AttrNULL :: [keyOf "3" AttrNULL]))
  = Some badRange.
Proof.
  apply (Get_first_range_error (QueryOps0 := strictQueries)).
  - reflexivity.
  - repeat constructor.
  - reflexivity.
Defined.

(** X5 on the batch of two keys. *)
Lemma input_merges_queries_witness :
  ∃ q rest bg',
    reqs twoKeys = q :: rest
    ∧ reqs bg' = reqs twoKeys
    ∧ input twoKeys
      = Returns
          (mkBatchGetItemInput
             {["users" :=
                 Some (mkKeysAndAttributes [] (Some false) ∅
                         (Keys (Query_keysAndAttribs q) ++ (Query_keys <$> rest))
                         None)]}
             None)
          bg'.
Proof.
  destruct (input_merges_queries twoKeys) as (q & rest & bg' & Hqs & Hreqs & Hinput).
  - vm_compute. discriminate.
  - exists q, rest, bg'. cbn in Hqs. injection Hqs as <- <-.
    split; [reflexivity|]. split; [exact Hreqs|]. exact Hinput.
Defined.

(** X7 on a page whose second item the decoder rejects. *)
Lemma decode_error_stops_iteration_witness :
  let s := state_of (Next [] (start twoKeys pickyAppend
                                [(Some (page [ann; nameless] ∅), None)])) in
  ∃ s', Next [ann] s = Returns (false, [ann]) s'
        ∧ Err s' = Some cannotDecode
        ∧ journal s' = journal s ∧ client s' = client s
        ∧ ∀ out2, Next out2 s' = Returns (false, out2) s'.
Proof.
  intros s.
  apply (decode_error_stops_iteration s [ann] (page [ann; nameless] ∅) nameless).
  - reflexivity.
  - reflexivity.
  - by vm_compute.
  - by vm_compute.
  - reflexivity.
Defined.

(** X8 on a first page that starts with an item the decoder rejects. *)
Lemma decode_error_on_first_item_witness :
  ∃ s', Next [] (start oneKey pickyItem [(Some (page [nameless; ann] ∅), None)])
        = Returns (false, []) s'
        ∧ Err s' = Some cannotDecode
        ∧ length (journal s') = 1%nat.
Proof.
  edestruct (decode_error_on_first_item oneKey pickyItem
               [(Some (page [nameless; ann] ∅), None)] [] []
               (mkBatchGetItemInput (unprocessed ["1"]) None) oneKey
               (page [nameless; ann] ∅) [] nameless [ann] cannotDecode)
    as (s' & Hnext & Herr & Hjournal).
  - reflexivity.
  - reflexivity.
  - reflexivity.
  - by vm_compute.
  - reflexivity.
  - exists s'. split; [exact Hnext|]. split; [exact Herr|]. by rewrite Hjournal.
Defined.

(** X9 on the first call of [Next] for one key that the table holds. *)
Lemma Next_true_hands_out_item_witness :
  let s := start oneKey unmarshalAppend [(Some (page [ann] ∅), None)] in
  let s' := state_of (Next [] s) in
  Err s' = None
  ∧ 1 ≤ itr_idx (iter s')
  ∧ ∃ item,
      pageItems (iter s') !! Z.to_nat (itr_idx (iter s') - 1) = Some item
      ∧ itr_unmarshal (iter s) item [] = ([ann], None).
Proof.
  intros s s'.
  apply (Next_true_hands_out_item s [] [ann] s').
  - apply reachable_new.
  - vm_compute. reflexivity.
Defined.

(** X10 on the state after the only item of the only page. *)
Lemma Next_false_without_error_iff_exhausted_witness :
  let s := state_of (Next [] (start oneKey unmarshalAppend
                                [(Some (page [ann] ∅), None)])) in
  ∃ out' s', Next [ann] s = Returns (false, out') s' ∧ Err s' = None.
Proof.
  intros s.
  apply (Next_false_without_error_iff_exhausted s [ann]).
  - eapply (reachable_Next
              (start oneKey unmarshalAppend [(Some (page [ann] ∅), None)]) []);
      [apply reachable_new|]. vm_compute. reflexivity.
  - split; [reflexivity|]. eexists. split; [reflexivity|]. split; by vm_compute.
Defined.

(** X11 with the client [steady], on a script that holds a nil output. *)
Lemma All_never_panics_witness :
  All (Client0 := steady) 3 oneKey [] [(None, Some sendFailed)]
  ≠ Panics (state_of (All (Client0 := steady) 3 oneKey [] [(None, Some sendFailed)])).
Proof.
  apply (All_never_panics (Client0 := steady) oneKey 3 [] [(None, Some sendFailed)]).
  - vm_compute. discriminate.
  - intros inp [|[o e] w]; by eexists.
Defined.

(** X12 on two keys served over two pages of one item each. *)
Lemma All_journal_of_pages_witness :
  ∃ out' s',
    All 3 twoKeys []
      [(Some (page [ann] (unprocessed ["2"])), None); (Some (page [bob] ∅), None)]
    = Returns (None, out') s'
    ∧ journal s'
      = [EvBatchGetItem (mkBatchGetItemInput (unprocessed ["1"; "2"]) None);
         EvSleep 500000000;
         EvBatchGetItem (mkBatchGetItemInput (unprocessed ["2"]) None)].
Proof.
  edestruct (All_journal_of_pages twoKeys []
               [(Some (page [ann] (unprocessed ["2"])), None); (Some (page [bob] ∅), None)]
               (mkBatchGetItemInput (unprocessed ["1"; "2"]) None) twoKeys
               [page [ann] (unprocessed ["2"]); page [bob] ∅])
    as (out' & s' & Hall & Hjournal).
  - reflexivity.
  - reflexivity.
  - eexists. split; [reflexivity|]. eexists. split; [reflexivity|]. exact I.
  - split; by vm_compute.
  - repeat constructor; by vm_compute.
  - intros item d _. reflexivity.
  - instantiate (1 := 3%nat). vm_compute. lia.
  - exists out', s'. split; [exact Hall|]. rewrite Hjournal. by vm_compute.
Defined.

(** X13 on a page of three items whose second the decoder rejects. *)
Lemma All_stops_at_decode_error_witness :
  ∃ s', All (Unmarshal0 := picky) 2 twoKeys []
          [(Some (page [ann; nameless; bob] ∅), None)]
        = Returns (Some cannotDecode, [ann]) s'
        ∧ length (journal s') = 1%nat.
Proof.
  edestruct (All_stops_at_decode_error (Unmarshal0 := picky) twoKeys []
               [(Some (page [ann; nameless; bob] ∅), None)]
               (mkBatchGetItemInput (unprocessed ["1"; "2"]) None) twoKeys
               (page [ann; nameless; bob] ∅) [] [ann] nameless [bob] cannotDecode)
    as (s' & Hall & Hjournal).
  - reflexivity.
  - reflexivity.
  - reflexivity.
  - by vm_compute.
  - intros item d Hin. apply list_elem_of_singleton in Hin. subst item. reflexivity.
  - intros d. reflexivity.
  - instantiate (1 := 2%nat). cbn. lia.
  - exists s'. split; [exact Hall|]. by rewrite Hjournal.
Defined.

(** X14 on the call that follows a page with an unprocessed key. *)
Lemma Next_journal_step_witness :
  let s := state_of (Next [] (start twoKeys unmarshalAppend
                                [(Some (page [ann] (unprocessed ["2"])), None);
                                 (Some (page [bob] ∅), None)])) in
  ∃ evs,
    journal (state_of (Next [ann] s)) = journal s ++ evs
    ∧ (evs = []
       ∨ (itr_output (iter s) = None
          ∧ ∃ inp n, evs = replicate (S n) (EvBatchGetItem inp))
       ∨ (∃ p inp n,
            itr_output (iter s) = Some p ∧ itr_input (iter s) = Some inp
            ∧ evs = EvSleep (NextBackOff (itr_backoff (iter s))).1
                      :: replicate (S n)
                           (EvBatchGetItem (setRequestItems (UnprocessedKeys p) inp)))).
Proof.
  intros s. apply (Next_journal_step s [ann]).
  eapply (reachable_Next
            (start twoKeys unmarshalAppend
               [(Some (page [ann] (unprocessed ["2"])), None);
                (Some (page [bob] ∅), None)]) []);
    [apply reachable_new|]. vm_compute. reflexivity.
Defined.
